(** * collider.c: oriented bounding boxes and the separating-axis test

  A shallow embedding of [src/collider.c] (with the raymath routines it
  calls) and the proofs of the properties its specification states.

  The C code computes on [float]s.  Every function below is written once,
  over an interface [FloatOps] of scalar operations, and is read at two
  instances:
  - [binary32]: IEEE 754 single precision (round to nearest even, signed
    zeros, infinities, NaN), built on the Standard Library's [SpecFloat];
    this is what the compiled program computes, and it evaluates;
  - [exact]: the real numbers, the reading under which the geometric
    statements of the specification (signs, lengths, symmetry) are meant.
  Statements that only depend on the control flow are proved for every
  instance at once. *)

From Stdlib Require Import ZArith List Bool Lia Permutation.
From Stdlib Require Import Reals Lra Btauto.
From Stdlib Require Import Floats.SpecFloat.
From Stdlib Require QArith.
Import ListNotations.

Set Implicit Arguments.

(** ** Scalars *)

(** The arithmetic of C's [float] that the program uses.  The four constants
  are the literals that occur in collider.c and raymath.h. *)
Class FloatOps (F : Type) : Type := {
fzero : F;                 (* 0.f *)
fone : F;                  (* 1.f *)
fhundred : F;              (* 100.f *)
fepsilon : F;              (* raymath's EPSILON, 0.000001f *)
fadd : F -> F -> F;
fsub : F -> F -> F;
fmul : F -> F -> F;
fdiv : F -> F -> F;
fsqrt : F -> F;            (* sqrtf *)
fabs : F -> F;             (* fabs, fabsf *)
feqb : F -> F -> bool;     (* == *)
fltb : F -> F -> bool;     (* <  *)
fleb : F -> F -> bool      (* <= *)
}.

(** [sinf] and [cosf], which only [MatrixRotate] calls. *)
Class TrigOps (F : Type) : Type := {
fsin : F -> F;
fcos : F -> F
}.

Declare Scope fl_scope.
Delimit Scope fl_scope with fl.
Notation "x + y" := (fadd x y) : fl_scope.
Notation "x - y" := (fsub x y) : fl_scope.
Notation "x * y" := (fmul x y) : fl_scope.
Notation "x / y" := (fdiv x y) : fl_scope.
Notation "x == y" := (feqb x y) (at level 70, no associativity) : fl_scope.
Notation "x != y" := (negb (feqb x y)) (at level 70, no associativity) : fl_scope.
Notation "x < y" := (fltb x y) : fl_scope.
Notation "x > y" := (fltb y x) (only parsing) : fl_scope.
Notation "x <= y" := (fleb x y) : fl_scope.

Section Libm.
Context {F : Type} {ops : FloatOps F}.
Local Open Scope fl_scope.

(** A value differs from itself exactly when it is a NaN. *)
Definition fisnan (x : F) : bool := x != x.

(** C's [fmin]/[fmax]: a NaN argument is ignored in favour of the other. *)
Definition fmin (x y : F) : F :=
  if fisnan x then y else if fisnan y then x else if y < x then y else x.

Definition fmax (x y : F) : F :=
  if fisnan x then y else if fisnan y then x else if x < y then y else x.
End Libm.

(** ** raylib types and the raymath routines called by collider.c *)

Record Vector2 (F : Type) : Type := mkVector2 { v2_x : F; v2_y : F }.
Record Vector3 (F : Type) : Type := mkVector3 { v3_x : F; v3_y : F; v3_z : F }.

(** raylib's [Matrix]: sixteen floats, [m12], [m13], [m14] the translation. *)
Record Matrix (F : Type) : Type := mkMatrix {
m0 : F; m4 : F; m8 : F;  m12 : F;
m1 : F; m5 : F; m9 : F;  m13 : F;
m2 : F; m6 : F; m10 : F; m14 : F;
m3 : F; m7 : F; m11 : F; m15 : F
}.

Section Raymath.
Context {F : Type} {ops : FloatOps F}.
Local Open Scope fl_scope.

Definition Vector3Zero : Vector3 F := mkVector3 fzero fzero fzero.

Definition Vector3Scale (v : Vector3 F) (scalar : F) : Vector3 F :=
  mkVector3 (v3_x v * scalar) (v3_y v * scalar) (v3_z v * scalar).

Definition Vector3DotProduct (v1 v2 : Vector3 F) : F :=
  v3_x v1 * v3_x v2 + v3_y v1 * v3_y v2 + v3_z v1 * v3_z v2.

Definition Vector3CrossProduct (v1 v2 : Vector3 F) : Vector3 F :=
  mkVector3 (v3_y v1 * v3_z v2 - v3_z v1 * v3_y v2)
            (v3_z v1 * v3_x v2 - v3_x v1 * v3_z v2)
            (v3_x v1 * v3_y v2 - v3_y v1 * v3_x v2).

Definition Vector3Normalize (v : Vector3 F) : Vector3 F :=
  let length := fsqrt (v3_x v * v3_x v + v3_y v * v3_y v + v3_z v * v3_z v) in
  if length != fzero then
    let ilength := fone / length in
    mkVector3 (v3_x v * ilength) (v3_y v * ilength) (v3_z v * ilength)
  else v.

(** One coordinate of [Vector3Equals]. *)
Definition FloatNear (p q : F) : bool :=
  fabs (p - q) <= fepsilon * fmax fone (fmax (fabs p) (fabs q)).

Definition Vector3Equals (p q : Vector3 F) : bool :=
  FloatNear (v3_x p) (v3_x q) && FloatNear (v3_y p) (v3_y q)
  && FloatNear (v3_z p) (v3_z q).

Definition Vector3Transform (v : Vector3 F) (mat : Matrix F) : Vector3 F :=
  let x := v3_x v in let y := v3_y v in let z := v3_z v in
  mkVector3 (m0 mat * x + m4 mat * y + m8 mat * z + m12 mat)
            (m1 mat * x + m5 mat * y + m9 mat * z + m13 mat)
            (m2 mat * x + m6 mat * y + m10 mat * z + m14 mat).

Definition MatrixIdentity : Matrix F :=
  mkMatrix fone fzero fzero fzero
           fzero fone fzero fzero
           fzero fzero fone fzero
           fzero fzero fzero fone.

Definition MatrixTranslate (x y z : F) : Matrix F :=
  mkMatrix fone fzero fzero x
           fzero fone fzero y
           fzero fzero fone z
           fzero fzero fzero fone.

Definition MatrixMultiply (left right : Matrix F) : Matrix F :=
  {| m0 := m0 left * m0 right + m1 left * m4 right + m2 left * m8 right + m3 left * m12 right;
     m1 := m0 left * m1 right + m1 left * m5 right + m2 left * m9 right + m3 left * m13 right;
     m2 := m0 left * m2 right + m1 left * m6 right + m2 left * m10 right + m3 left * m14 right;
     m3 := m0 left * m3 right + m1 left * m7 right + m2 left * m11 right + m3 left * m15 right;
     m4 := m4 left * m0 right + m5 left * m4 right + m6 left * m8 right + m7 left * m12 right;
     m5 := m4 left * m1 right + m5 left * m5 right + m6 left * m9 right + m7 left * m13 right;
     m6 := m4 left * m2 right + m5 left * m6 right + m6 left * m10 right + m7 left * m14 right;
     m7 := m4 left * m3 right + m5 left * m7 right + m6 left * m11 right + m7 left * m15 right;
     m8 := m8 left * m0 right + m9 left * m4 right + m10 left * m8 right + m11 left * m12 right;
     m9 := m8 left * m1 right + m9 left * m5 right + m10 left * m9 right + m11 left * m13 right;
     m10 := m8 left * m2 right + m9 left * m6 right + m10 left * m10 right + m11 left * m14 right;
     m11 := m8 left * m3 right + m9 left * m7 right + m10 left * m11 right + m11 left * m15 right;
     m12 := m12 left * m0 right + m13 left * m4 right + m14 left * m8 right + m15 left * m12 right;
     m13 := m12 left * m1 right + m13 left * m5 right + m14 left * m9 right + m15 left * m13 right;
     m14 := m12 left * m2 right + m13 left * m6 right + m14 left * m10 right + m15 left * m14 right;
     m15 := m12 left * m3 right + m13 left * m7 right + m14 left * m11 right + m15 left * m15 right |}.

Context {trig : TrigOps F}.

Definition MatrixRotate (axis : Vector3 F) (angle : F) : Matrix F :=
  let lengthSquared :=
    v3_x axis * v3_x axis + v3_y axis * v3_y axis + v3_z axis * v3_z axis in
  let ilength :=
    if (lengthSquared != fone) && (lengthSquared != fzero)
    then Some (fone / fsqrt lengthSquared) else None in
  let scaled c := match ilength with Some il => c * il | None => c end in
  let x := scaled (v3_x axis) in
  let y := scaled (v3_y axis) in
  let z := scaled (v3_z axis) in
  let sinres := fsin angle in
  let cosres := fcos angle in
  let t := fone - cosres in
  {| m0 := x * x * t + cosres;
     m1 := y * x * t + z * sinres;
     m2 := z * x * t - y * sinres;
     m3 := fzero;
     m4 := x * y * t - z * sinres;
     m5 := y * y * t + cosres;
     m6 := z * y * t + x * sinres;
     m7 := fzero;
     m8 := x * z * t + y * sinres;
     m9 := y * z * t - x * sinres;
     m10 := z * z * t + cosres;
     m11 := fzero;
     m12 := fzero; m13 := fzero; m14 := fzero;
     m15 := fone |}.
End Raymath.

(** ** collider.h *)

Definition COLLIDER_VERTEX_COUNT : nat := 8.

(** A C array [Vector3 v[COLLIDER_VERTEX_COUNT]]: eight cells, no more. *)
Record Verts (F : Type) : Type := mkVerts {
vert0 : Vector3 F; vert1 : Vector3 F; vert2 : Vector3 F; vert3 : Vector3 F;
vert4 : Vector3 F; vert5 : Vector3 F; vert6 : Vector3 F; vert7 : Vector3 F
}.

Section VertsAccess.
Context {F : Type}.

(** [vs[i]] for [i < 8]; the C code never indexes further. *)
Definition vget (vs : Verts F) (i : nat) : Vector3 F :=
  match i with
  | 0 => vert0 vs | 1 => vert1 vs | 2 => vert2 vs | 3 => vert3 vs
  | 4 => vert4 vs | 5 => vert5 vs | 6 => vert6 vs | _ => vert7 vs
  end.

(** [vs[i] = v] for [i < 8]. *)
Definition vset (vs : Verts F) (i : nat) (v : Vector3 F) : Verts F :=
  match i with
  | 0 => mkVerts v (vert1 vs) (vert2 vs) (vert3 vs) (vert4 vs) (vert5 vs) (vert6 vs) (vert7 vs)
  | 1 => mkVerts (vert0 vs) v (vert2 vs) (vert3 vs) (vert4 vs) (vert5 vs) (vert6 vs) (vert7 vs)
  | 2 => mkVerts (vert0 vs) (vert1 vs) v (vert3 vs) (vert4 vs) (vert5 vs) (vert6 vs) (vert7 vs)
  | 3 => mkVerts (vert0 vs) (vert1 vs) (vert2 vs) v (vert4 vs) (vert5 vs) (vert6 vs) (vert7 vs)
  | 4 => mkVerts (vert0 vs) (vert1 vs) (vert2 vs) (vert3 vs) v (vert5 vs) (vert6 vs) (vert7 vs)
  | 5 => mkVerts (vert0 vs) (vert1 vs) (vert2 vs) (vert3 vs) (vert4 vs) v (vert6 vs) (vert7 vs)
  | 6 => mkVerts (vert0 vs) (vert1 vs) (vert2 vs) (vert3 vs) (vert4 vs) (vert5 vs) v (vert7 vs)
  | 7 => mkVerts (vert0 vs) (vert1 vs) (vert2 vs) (vert3 vs) (vert4 vs) (vert5 vs) (vert6 vs) v
  | _ => vs
  end.
End VertsAccess.

Record Collider (F : Type) : Type := mkCollider {
vertLocal : Verts F;       (* vertex positions in local (model) space *)
vertGlobal : Verts F;      (* vertex positions in global (world) space *)
matRotate : Matrix F;      (* rotation about origin in local space *)
matTranslate : Matrix F    (* translation applied after rotation *)
}.

(** ** collider.c *)

Section ColliderCode.
Context {F : Type} {ops : FloatOps F}.
Local Open Scope fl_scope.

(** [for (int i = lo; i < lo + n; i++) s = body i s]. *)
Definition for_loop {S : Type} (lo n : nat) (body : nat -> S -> S) (s : S) : S :=
  fold_left (fun acc i => body i acc) (seq lo n) s.

Definition UpdateColliderGlobalVerts (col : Collider F) : Collider F :=
  let matTemp := MatrixMultiply (matRotate col) (matTranslate col) in
  for_loop 0 COLLIDER_VERTEX_COUNT
    (fun i c =>
       mkCollider (vertLocal c)
                  (vset (vertGlobal c) i (Vector3Transform (vget (vertLocal c) i) matTemp))
                  (matRotate c) (matTranslate c))
    col.

Definition CreateCollider (min max : Vector3 F) : Collider F :=
  let local :=
    mkVerts (mkVector3 (v3_x min) (v3_y min) (v3_z min))
            (mkVector3 (v3_x min) (v3_y min) (v3_z max))
            (mkVector3 (v3_x min) (v3_y max) (v3_z min))
            (mkVector3 (v3_x min) (v3_y max) (v3_z max))
            (mkVector3 (v3_x max) (v3_y min) (v3_z min))
            (mkVector3 (v3_x max) (v3_y min) (v3_z max))
            (mkVector3 (v3_x max) (v3_y max) (v3_z min))
            (mkVector3 (v3_x max) (v3_y max) (v3_z max)) in
  let zeros :=
    mkVerts Vector3Zero Vector3Zero Vector3Zero Vector3Zero
            Vector3Zero Vector3Zero Vector3Zero Vector3Zero in
  UpdateColliderGlobalVerts
    (mkCollider local zeros MatrixIdentity MatrixIdentity).

Definition SetColliderTranslation (col : Collider F) (pos : Vector3 F) : Collider F :=
  UpdateColliderGlobalVerts
    (mkCollider (vertLocal col) (vertGlobal col) (matRotate col)
                (MatrixTranslate (v3_x pos) (v3_y pos) (v3_z pos))).

Definition AddColliderTranslation (col : Collider F) (pos : Vector3 F) : Collider F :=
  let matTemp := MatrixTranslate (v3_x pos) (v3_y pos) (v3_z pos) in
  UpdateColliderGlobalVerts
    (mkCollider (vertLocal col) (vertGlobal col) (matRotate col)
                (MatrixMultiply (matTranslate col) matTemp)).

Definition GetColliderTransform (col : Collider F) : Matrix F :=
  MatrixMultiply (matRotate col) (matTranslate col).

Section Rotation.
Context {trig : TrigOps F}.

Definition SetColliderRotation (col : Collider F) (axis : Vector3 F) (ang : F)
  : Collider F :=
  UpdateColliderGlobalVerts
    (mkCollider (vertLocal col) (vertGlobal col) (MatrixRotate axis ang)
                (matTranslate col)).

Definition AddColliderRotation (col : Collider F) (axis : Vector3 F) (ang : F)
  : Collider F :=
  let matTemp := MatrixRotate axis ang in
  UpdateColliderGlobalVerts
    (mkCollider (vertLocal col) (vertGlobal col)
                (MatrixMultiply (matRotate col) matTemp) (matTranslate col)).
End Rotation.

(** The axis stored in [vec[i]] for the pair [(vec[j], vec[k])]. *)
Definition CrossAxis (vj vk : Vector3 F) : Vector3 F :=
  if Vector3Equals vj vk then mkVector3 fone fzero fzero
  else Vector3Normalize (Vector3CrossProduct vj vk).

(** The buffer [vec[0..14]] as [GetCollisionVectors] leaves it: the cells
    [6..14] are filled by the nested loops, [j] outermost. *)
Definition GetCollisionVectors (a b : Collider F) : list (Vector3 F) :=
  let x := mkVector3 fone fzero fzero in
  let y := mkVector3 fzero fone fzero in
  let z := mkVector3 fzero fzero fone in
  let va := [Vector3Transform x (matRotate a);
             Vector3Transform y (matRotate a);
             Vector3Transform z (matRotate a)] in
  let vb := [Vector3Transform x (matRotate b);
             Vector3Transform y (matRotate b);
             Vector3Transform z (matRotate b)] in
  va ++ vb ++ flat_map (fun vj => map (fun vk => CrossAxis vj vk) vb) va.

Definition GetColliderProjectionBounds (col : Collider F) (vec : Vector3 F)
  : Vector2 F :=
  let proj := Vector3DotProduct (vget (vertGlobal col) 0) vec in
  for_loop 1 (COLLIDER_VERTEX_COUNT - 1)
    (fun i bounds =>
       let proj := Vector3DotProduct (vget (vertGlobal col) i) vec in
       mkVector2 (fmin (v2_x bounds) proj) (fmax (v2_y bounds) proj))
    (mkVector2 proj proj).

Definition BoundsOverlap (a b : Vector2 F) : bool :=
  if v2_x a > v2_y b then false
  else if v2_x b > v2_y a then false
  else true.

Definition GetOverlap (a b : Vector2 F) : F :=
  if v2_x a > v2_y b then fzero
  else if v2_x b > v2_y a then fzero
  else if v2_x a > v2_x b then v2_y b - v2_x a
  else v2_x b - v2_y a.

(** The loop of [TestColliderPair] over the remaining cells of [testVec]. *)
Fixpoint TestAxes (a b : Collider F) (testVec : list (Vector3 F)) : bool :=
  match testVec with
  | [] => true
  | v :: rest =>
      let apro := GetColliderProjectionBounds a v in
      let bpro := GetColliderProjectionBounds b v in
      if negb (BoundsOverlap apro bpro) then false
      else TestAxes a b rest
  end.

Definition TestColliderPair (a b : Collider F) : bool :=
  TestAxes a b (GetCollisionVectors a b).

(** The loop of [GetCollisionCorrection] over the remaining cells of
    [testVec], from the current [overlapMin] and [overlapDir]. *)
Fixpoint CorrectionLoop (a b : Collider F) (testVec : list (Vector3 F))
         (overlapMin : F) (overlapDir : Vector3 F) : Vector3 F :=
  match testVec with
  | [] => Vector3Scale overlapDir overlapMin
  | v :: rest =>
      let apro := GetColliderProjectionBounds a v in
      let bpro := GetColliderProjectionBounds b v in
      let overlap := GetOverlap apro bpro in
      if overlap == fzero then Vector3Zero
      else if fabs overlap < fabs overlapMin
           then CorrectionLoop a b rest overlap v
           else CorrectionLoop a b rest overlapMin overlapDir
  end.

Definition GetCollisionCorrection (a b : Collider F) : Vector3 F :=
  CorrectionLoop a b (GetCollisionVectors a b) fhundred
                 (mkVector3 fzero fzero fzero).
End ColliderCode.

(** ** IEEE 754 single precision *)

Definition b32_prec : Z := 24.
Definition b32_emax : Z := 128.

(** The float nearest to an integer. *)
Definition b32_of_Z (n : Z) : spec_float :=
binary_normalize b32_prec b32_emax n 0 false.

#[export] Instance binary32 : FloatOps spec_float := {|
fzero := S754_zero false;
fone := b32_of_Z 1;
fhundred := b32_of_Z 100;
fepsilon := SFdiv b32_prec b32_emax (b32_of_Z 1) (b32_of_Z 1000000);
fadd := SFadd b32_prec b32_emax;
fsub := SFsub b32_prec b32_emax;
fmul := SFmul b32_prec b32_emax;
fdiv := SFdiv b32_prec b32_emax;
fsqrt := SFsqrt b32_prec b32_emax;
fabs := SFabs;
feqb := SFeqb;
fltb := SFltb;
fleb := SFleb
|}.

Definition vec3Z (x y z : Z) : Vector3 spec_float :=
mkVector3 (b32_of_Z x) (b32_of_Z y) (b32_of_Z z).


(** ** The real numbers *)

Definition Rb (P : Prop) (d : {P} + {~ P}) : bool := if d then true else false.

#[export] Instance exact : FloatOps R := {|
  fzero := 0%R;
  fone := 1%R;
  fhundred := 100%R;
  fepsilon := (1 / 1000000)%R;
  fadd := Rplus;
  fsub := Rminus;
  fmul := Rmult;
  fdiv := Rdiv;
  fsqrt := sqrt;
  fabs := Rabs;
  feqb := fun x y => Rb (Req_dec_T x y);
  fltb := fun x y => Rb (Rlt_dec x y);
  fleb := fun x y => Rb (Rle_dec x y)
|}.

#[export] Instance exact_trig : TrigOps R := {| fsin := sin; fcos := cos |}.

(** ** Vocabulary of the statements *)

Section Intervals.
Context {F : Type} {ops : FloatOps F}.

(** One interval's maximum strictly below the other's minimum. *)
Definition disjoint (A B : Vector2 F) : bool :=
  ((v2_y B < v2_x A) || (v2_y A < v2_x B))%fl.

(** One interval's maximum equal to the other's minimum. *)
Definition touching (A B : Vector2 F) : bool :=
  ((v2_y A == v2_x B) || (v2_y B == v2_x A))%fl.
End Intervals.

(** The two intervals of a pair of colliders on one axis [v], and what the
    two entry points compute from them: whether they are disjoint, and the
    overlap.  [axis a b i] is [testVec[i]], [depth a b i] the overlap
    computed for it.  These are abbreviations, not new constants. *)
Abbreviation separated_on a b v :=
  (disjoint (GetColliderProjectionBounds a v) (GetColliderProjectionBounds b v))
  (only parsing).
Abbreviation overlap_on a b v :=
  (GetOverlap (GetColliderProjectionBounds a v) (GetColliderProjectionBounds b v))
  (only parsing).
Abbreviation axis a b i := (nth i (GetCollisionVectors a b) Vector3Zero) (only parsing).
Abbreviation depth a b i := (overlap_on a b (axis a b i)) (only parsing).

Section Vocabulary.
Context {F : Type} {ops : FloatOps F}.

(** The world vertices agree with the two matrices of the struct. *)
Definition consistent (col : Collider F) : Prop :=
  forall i, i < COLLIDER_VERTEX_COUNT ->
    vget (vertGlobal col) i =
    Vector3Transform (vget (vertLocal col) i) (GetColliderTransform col).

(** The world vertices are the local ones, rotated and then translated. *)
Definition rotated_then_translated (col : Collider F) : Prop :=
  forall i, i < COLLIDER_VERTEX_COUNT ->
    vget (vertGlobal col) i =
    Vector3Transform (Vector3Transform (vget (vertLocal col) i) (matRotate col))
                     (matTranslate col).

(** The projections that the loop of [GetColliderProjectionBounds] visits,
    and its body. *)
Definition projections (col : Collider F) (vec : Vector3 F) : list F :=
  map (fun i => Vector3DotProduct (vget (vertGlobal col) i) vec)
      (seq 1 (COLLIDER_VERTEX_COUNT - 1)).

Definition widen (bounds : Vector2 F) (proj : F) : Vector2 F :=
  mkVector2 (fmin (v2_x bounds) proj) (fmax (v2_y bounds) proj).

(** The update of [overlapMin] and [overlapDir] in one iteration of
    [GetCollisionCorrection] that does not return. *)
Definition keep_smaller (a b : Collider F) (st : F * Vector3 F) (v : Vector3 F)
  : F * Vector3 F :=
  if (fabs (overlap_on a b v) < fabs (fst st))%fl then (overlap_on a b v, v) else st.

Definition running_min (a b : Collider F) (l : list (Vector3 F)) (st : F * Vector3 F)
  : F * Vector3 F :=
  fold_left (keep_smaller a b) l st.

(** The squared length and (raymath's [Vector3Length]) the length. *)
Definition Vector3LengthSqr (v : Vector3 F) : F :=
  (v3_x v * v3_x v + v3_y v * v3_y v + v3_z v * v3_z v)%fl.

Definition Vector3Length (v : Vector3 F) : F := fsqrt (Vector3LengthSqr v).

(** The three basis directions. *)
Definition unitX : Vector3 F := mkVector3 fone fzero fzero.
Definition unitY : Vector3 F := mkVector3 fzero fone fzero.
Definition unitZ : Vector3 F := mkVector3 fzero fzero fone.

(** The calls a client can make on a collider it owns. *)
Inductive Mutation : Type :=
| SetRotation (axis : Vector3 F) (ang : F)
| AddRotation (axis : Vector3 F) (ang : F)
| SetTranslation (pos : Vector3 F)
| AddTranslation (pos : Vector3 F).

Context {trig : TrigOps F}.

Definition mutate (col : Collider F) (m : Mutation) : Collider F :=
  match m with
  | SetRotation axis ang => SetColliderRotation col axis ang
  | AddRotation axis ang => AddColliderRotation col axis ang
  | SetTranslation pos => SetColliderTranslation col pos
  | AddTranslation pos => AddColliderTranslation col pos
  end.

Definition mutate_all (col : Collider F) (ms : list Mutation) : Collider F :=
  fold_left mutate ms col.
End Vocabulary.

Arguments Mutation F : clear implicits.

(** The touching intervals for which the overlap computed is zero: [A]'s
    maximum is [B]'s minimum, or [B]'s maximum is [A]'s minimum and [B]
    starts strictly below; the common value is [finite]. *)
Definition clean_touch {F : Type} {ops : FloatOps F} (finite : F -> bool)
  (A B : Vector2 F) : Prop :=
  ((v2_y A == v2_x B)%fl = true /\ finite (v2_y A) = true) \/
  ((v2_y B == v2_x A)%fl = true /\ (v2_x B < v2_x A)%fl = true /\
   finite (v2_x A) = true).

(** The sign convention with the directions as the specification words
    them: [b.max - a.min] pushing backwards along the axis, [b.min - a.max]
    forwards. *)
Definition sign_as_stated {F : Type} {ops : FloatOps F} (A B : Vector2 F) : Prop :=
  ((v2_x A > v2_x B)%fl = true ->
   GetOverlap A B = (v2_y B - v2_x A)%fl /\ (GetOverlap A B < fzero)%fl = true) /\
  ((v2_x A > v2_x B)%fl = false ->
   GetOverlap A B = (v2_x B - v2_y A)%fl /\ (fzero < GetOverlap A B)%fl = true).

(** A rotation matrix maps the basis directions to unit vectors. *)
Definition unit_axes (M : Matrix R) : Prop :=
  Vector3LengthSqr (Vector3Transform unitX M) = 1%R /\
  Vector3LengthSqr (Vector3Transform unitY M) = 1%R /\
  Vector3LengthSqr (Vector3Transform unitZ M) = 1%R.

(** Neither an infinity nor a NaN. *)
Definition SFfinite (x : spec_float) : bool :=
  match x with
  | S754_zero _ | S754_finite _ _ _ => true
  | _ => false
  end.

(** A box given by integer corners, and a box moved by an integer offset. *)
Definition box (x0 y0 z0 x1 y1 z1 : Z) : Collider spec_float :=
  CreateCollider (vec3Z x0 y0 z0) (vec3Z x1 y1 z1).

Definition moved (col : Collider spec_float) (dx dy dz : Z) : Collider spec_float :=
  SetColliderTranslation col (vec3Z dx dy dz).

(** What [MatrixRotate] returns for the axes (1, 0, 0) and (0, 0, 1) when
    [cosf] and [sinf] of the angle are [c] and [s] (and [(1 - c) + c] is
    1, as it is for the values used below). *)
Definition about_x (c s : spec_float) : Matrix spec_float :=
  {| m0 := fone;  m4 := fzero; m8 := fzero;          m12 := fzero;
     m1 := fzero; m5 := c;     m9 := (fzero - s)%fl; m13 := fzero;
     m2 := fzero; m6 := s;     m10 := c;             m14 := fzero;
     m3 := fzero; m7 := fzero; m11 := fzero;         m15 := fone |}.

Definition about_z (c s : spec_float) : Matrix spec_float :=
  {| m0 := c;     m4 := (fzero - s)%fl; m8 := fzero;  m12 := fzero;
     m1 := s;     m5 := c;              m9 := fzero;  m13 := fzero;
     m2 := fzero; m6 := fzero;          m10 := fone;  m14 := fzero;
     m3 := fzero; m7 := fzero;          m11 := fzero; m15 := fone |}.

(** The struct after [SetColliderRotation] has stored the matrix [M]. *)
Definition with_rotation (col : Collider spec_float) (M : Matrix spec_float)
  : Collider spec_float :=
  UpdateColliderGlobalVerts
    (mkCollider (vertLocal col) (vertGlobal col) M (matTranslate col)).

(** The float nearest to the square root of 1/2 (0x3F3504F3).  It is the
    correctly rounded sine and cosine of the float nearest to pi/4. *)
Definition half_sqrt2 : spec_float := fsqrt (fone / b32_of_Z 2)%fl.

(** The bounds of a projection are both NaN or in order. *)
Definition b32_ordered (B : Vector2 spec_float) : Prop :=
  (SFeqb (v2_x B) (v2_x B) = false /\ SFeqb (v2_y B) (v2_y B) = false) \/
  SFleb (v2_x B) (v2_y B) = true.

(** Two floats that are opposite, or are both zeros (of either sign); and
    the same of the coordinates of two vectors.  An interval seen from the
    opposite direction has its ends exchanged. *)
Definition SFis_zero (x : spec_float) : bool :=
  match x with S754_zero _ => true | _ => false end.

Definition mirror (x y : spec_float) : Prop :=
  y = SFopp x \/ (SFis_zero x = true /\ SFis_zero y = true).

Definition vmirror (v w : Vector3 spec_float) : Prop :=
  mirror (v3_x v) (v3_x w) /\ mirror (v3_y v) (v3_y w) /\ mirror (v3_z v) (v3_z w).

Definition flipped (A B : Vector2 spec_float) : Prop :=
  mirror (v2_x A) (v2_y B) /\ mirror (v2_y A) (v2_x B).

(** The opposite direction, and the interval seen from it. *)
Definition vneg (v : Vector3 R) : Vector3 R :=
  mkVector3 (- v3_x v)%R (- v3_y v)%R (- v3_z v)%R.

Definition negswap (B : Vector2 R) : Vector2 R :=
  mkVector2 (- v2_y B)%R (- v2_x B)%R.

(** The last row of a matrix that maps points to points. *)
Definition affine (M : Matrix R) : Prop :=
  m3 M = 0%R /\ m7 M = 0%R /\ m11 M = 0%R /\ m15 M = 1%R.

(** A value inside an interval, ends included. *)
Definition encloses {F : Type} {ops : FloatOps F} (B : Vector2 F) (q : F) : bool :=
  ((v2_x B <= q) && (q <= v2_y B))%fl.

(** A vector with a NaN coordinate, and a matrix with a NaN in its
    translation column. *)
Definition has_nan {F : Type} (nan : F) (v : Vector3 F) : Prop :=
  v3_x v = nan \/ v3_y v = nan \/ v3_z v = nan.

Definition nan_offset {F : Type} (nan : F) (M : Matrix F) : Prop :=
  m12 M = nan \/ m13 M = nan \/ m14 M = nan.

(** ** raymath and example.c *)

Section Moves.
Context {F : Type} {ops : FloatOps F}.
Local Open Scope fl_scope.

Definition Vector3Add (v1 v2 : Vector3 F) : Vector3 F :=
  mkVector3 (v3_x v1 + v3_x v2) (v3_y v1 + v3_y v2) (v3_z v1 + v3_z v2).

(** An interval moved by [c]. *)
Definition shift (B : Vector2 F) (c : F) : Vector2 F :=
  mkVector2 (v2_x B + c) (v2_y B + c).

(** example.c: the position of a body, read off its translation matrix. *)
Definition ColliderPosition (col : Collider F) : Vector3 F :=
  Vector3Transform Vector3Zero (matTranslate col).

(** example.c: the player is corrected against the block, then the ramp,
    then the plane. *)
Definition ResolveCollisions (player block ramp plane : Collider F) : Collider F :=
  let corr := GetCollisionCorrection player block in
  let player := AddColliderTranslation player corr in
  let corr := GetCollisionCorrection player ramp in
  let player := AddColliderTranslation player corr in
  let corr := GetCollisionCorrection player plane in
  AddColliderTranslation player corr.
End Moves.

(** What the exact-arithmetic statements ask of a struct: world vertices
    that agree with the matrices, and matrices with last row 0 0 0 1. *)
Definition well_formed (col : Collider R) : Prop :=
  consistent col /\ affine (matRotate col) /\ affine (matTranslate col).

(** ** The colliders of the examples *)

(** A cube of side 2 at the origin and copies of it moved along x: one unit
    (overlapping), two units (touching), three units (apart); and moved one
    unit along each axis (three equal overlaps). *)
Definition cube : Collider spec_float := box 0 0 0 2 2 2.
Definition cube_near : Collider spec_float := moved cube 1 0 0.
Definition cube_touching : Collider spec_float := moved cube 2 0 0.
Definition cube_apart : Collider spec_float := moved cube 3 0 0.
Definition cube_diagonal : Collider spec_float := moved cube 1 1 1.

(** Two cubes of side 1000, the second moved 500 along each axis. *)
Definition big : Collider spec_float := box 0 0 0 1000 1000 1000.
Definition big_moved : Collider spec_float := moved big 500 500 500.

(** A cube centred at the origin, turned an eighth of a turn about the
    x axis one way and the other: [cosf] of both angles is [half_sqrt2],
    [sinf] is [half_sqrt2] and its opposite. *)
Definition centred : Collider spec_float := box (-1) (-1) (-1) 1 1 1.
Definition leaning : Collider spec_float :=
  with_rotation centred (about_x half_sqrt2 half_sqrt2).
Definition leaning_back : Collider spec_float :=
  with_rotation centred (about_x half_sqrt2 (fzero - half_sqrt2)%fl).

(** The cube turned an eighth of a turn about the z axis, and a box reduced
    to the centre of the face of that cube which looks backwards along its
    first axis. *)
Definition tilted : Collider spec_float :=
  with_rotation cube (about_z half_sqrt2 half_sqrt2).
Definition speck_at : Vector3 spec_float :=
  mkVector3 (fzero - half_sqrt2)%fl half_sqrt2 fone.
Definition speck : Collider spec_float := CreateCollider speck_at speck_at.

(** raylib's [PI] as a [float] (0x40490FDB), and what [sinf] and [cosf]
    return for it: -8.742278e-8 (0xB3BBBD2E), the float nearest to the sine
    of that float, and -1. *)
Definition raylib_PI : spec_float := S754_finite false 13176795 (-22).
Definition sinf_PI : spec_float := S754_finite true 12303662 (-47).
Definition cosf_PI : spec_float := S754_finite true 8388608 (-23).

(** A libm that is known at [PI] only; the colliders below call it at no
    other angle. *)
Definition libm_at_PI : TrigOps spec_float :=
  {| fsin := fun _ => sinf_PI; fcos := fun _ => cosf_PI |}.

(** A cube of side 200 centred at the origin after
    [SetColliderRotation(&a, (1, 2^-12, 2^-12), PI)]: the squared length of
    the axis comes out as [1.0f] (each addition of 2^-24 to 1 rounds to 1),
    so [MatrixRotate] does not normalise it.  And the unit cube sent to
    (2^-14, 0, 0). *)
Definition slanted_axis : Vector3 spec_float :=
  mkVector3 fone (fone / b32_of_Z 4096)%fl (fone / b32_of_Z 4096)%fl.
Definition half_turned : Collider spec_float :=
  SetColliderRotation (trig := libm_at_PI) (box (-100) (-100) (-100) 100 100 100)
                      slanted_axis raylib_PI.
Definition nearby : Collider spec_float :=
  SetColliderTranslation (box 0 0 0 1 1 1)
    (mkVector3 (fone / b32_of_Z 16384)%fl fzero fzero).

(** The rational number a finite float stands for, and the squared length
    of a vector of floats computed without rounding. *)
Definition SF2Q (x : spec_float) : QArith_base.Q :=
  match x with
  | S754_finite s m e =>
      QArith_base.Qmult (QArith_base.inject_Z (if s then Zneg m else Zpos m))
                        (QArith_base.Qpower (QArith_base.inject_Z 2) e)
  | _ => QArith_base.inject_Z 0
  end.

Definition exact_length_sqr (v : Vector3 spec_float) : QArith_base.Q :=
  QArith_base.Qplus
    (QArith_base.Qplus (QArith_base.Qmult (SF2Q (v3_x v)) (SF2Q (v3_x v)))
                       (QArith_base.Qmult (SF2Q (v3_y v)) (SF2Q (v3_y v))))
    (QArith_base.Qmult (SF2Q (v3_z v)) (SF2Q (v3_z v))).

(** The unit cube over the reals. *)
Definition unit_cube : Collider R :=
  CreateCollider (mkVector3 0 0 0)%R (mkVector3 1 1 1)%R.

(** The unit cube moved three units along x. *)
Definition unit_cube_far : Collider R :=
  AddColliderTranslation unit_cube (mkVector3 3 0 0)%R.

(** The unit cube as [CreateCollider] returns it, before any mutator. *)
Abbreviation unit_cube_made :=
  (CreateCollider (mkVector3 0 0 0)%R (mkVector3 1 1 1)%R) (only parsing).

(** * Part II: properties *)

(** ** The loops, for every scalar arithmetic *)

Section Generic.
Context {F : Type} {ops : FloatOps F}.

(** What [UpdateColliderGlobalVerts] leaves in the struct. *)
Lemma UpdateColliderGlobalVerts_eq (col : Collider F) :
  UpdateColliderGlobalVerts col =
  let M := MatrixMultiply (matRotate col) (matTranslate col) in
  let L := vertLocal col in
  mkCollider L
    (mkVerts (Vector3Transform (vert0 L) M) (Vector3Transform (vert1 L) M)
             (Vector3Transform (vert2 L) M) (Vector3Transform (vert3 L) M)
             (Vector3Transform (vert4 L) M) (Vector3Transform (vert5 L) M)
             (Vector3Transform (vert6 L) M) (Vector3Transform (vert7 L) M))
    (matRotate col) (matTranslate col).
Proof. reflexivity. Qed.

Lemma Update_consistent (col : Collider F) :
  consistent (UpdateColliderGlobalVerts col).
Proof.
  rewrite UpdateColliderGlobalVerts_eq. intros i Hi.
  unfold COLLIDER_VERTEX_COUNT in Hi.
  do 8 (destruct i as [|i]; [reflexivity|]). lia.
Qed.

Lemma Update_keeps (col : Collider F) :
  vertLocal (UpdateColliderGlobalVerts col) = vertLocal col /\
  matRotate (UpdateColliderGlobalVerts col) = matRotate col /\
  matTranslate (UpdateColliderGlobalVerts col) = matTranslate col.
Proof. rewrite UpdateColliderGlobalVerts_eq. repeat split. Qed.

Lemma CreateCollider_consistent (min max : Vector3 F) :
  consistent (CreateCollider min max).
Proof. apply Update_consistent. Qed.

Lemma mutate_consistent {trig : TrigOps F} (col : Collider F) (m : Mutation F) :
  consistent (mutate col m).
Proof. destruct m; apply Update_consistent. Qed.

Lemma mutate_all_consistent {trig : TrigOps F} (ms : list (Mutation F)) (col : Collider F) :
  consistent col -> consistent (mutate_all col ms).
Proof.
  revert col. induction ms as [|m ms IH]; intros col H; [exact H|].
  apply IH, mutate_consistent.
Qed.

(** The mutators never touch the local vertices. *)
Lemma mutate_all_vertLocal {trig : TrigOps F} (ms : list (Mutation F)) (col : Collider F) :
  vertLocal (mutate_all col ms) = vertLocal col.
Proof.
  revert col. induction ms as [|m ms IH]; intros col; [reflexivity|].
  cbn [mutate_all fold_left]. fold (mutate_all (mutate col m) ms). rewrite IH.
  destruct m; reflexivity.
Qed.

Lemma GetColliderProjectionBounds_fold (col : Collider F) (vec : Vector3 F) :
  GetColliderProjectionBounds col vec =
  let p0 := Vector3DotProduct (vget (vertGlobal col) 0) vec in
  fold_left widen (projections col vec) (mkVector2 p0 p0).
Proof. reflexivity. Qed.

Lemma BoundsOverlap_disjoint (A B : Vector2 F) :
  BoundsOverlap A B = negb (disjoint A B).
Proof.
  unfold BoundsOverlap, disjoint.
  destruct (v2_y B < v2_x A)%fl, (v2_y A < v2_x B)%fl; reflexivity.
Qed.

Lemma GetOverlap_disjoint (A B : Vector2 F) :
  disjoint A B = true -> GetOverlap A B = fzero.
Proof.
  unfold GetOverlap, disjoint.
  destruct (v2_y B < v2_x A)%fl, (v2_y A < v2_x B)%fl; simpl; congruence.
Qed.

Lemma GetOverlap_overlapping (A B : Vector2 F) :
  disjoint A B = false ->
  GetOverlap A B =
  (if v2_x A > v2_x B then v2_y B - v2_x A else v2_x B - v2_y A)%fl.
Proof.
  unfold GetOverlap, disjoint.
  destruct (v2_y B < v2_x A)%fl, (v2_y A < v2_x B)%fl; simpl; congruence.
Qed.

Variables a b : Collider F.

Lemma GetCollisionVectors_length : length (GetCollisionVectors a b) = 15.
Proof. reflexivity. Qed.

(** The fifteen cells of [testVec], in the order they are visited. *)
Lemma GetCollisionVectors_eq :
  GetCollisionVectors a b =
  let ax := Vector3Transform unitX (matRotate a) in
  let ay := Vector3Transform unitY (matRotate a) in
  let az := Vector3Transform unitZ (matRotate a) in
  let bx := Vector3Transform unitX (matRotate b) in
  let by_ := Vector3Transform unitY (matRotate b) in
  let bz := Vector3Transform unitZ (matRotate b) in
  [ax; ay; az; bx; by_; bz;
   CrossAxis ax bx; CrossAxis ax by_; CrossAxis ax bz;
   CrossAxis ay bx; CrossAxis ay by_; CrossAxis ay bz;
   CrossAxis az bx; CrossAxis az by_; CrossAxis az bz].
Proof. reflexivity. Qed.

Lemma TestAxes_forallb (l : list (Vector3 F)) :
  TestAxes a b l = forallb (fun v => negb (separated_on a b v)) l.
Proof.
  induction l as [|v l IH]; simpl; [reflexivity|].
  rewrite BoundsOverlap_disjoint, negb_involutive, IH.
  destruct (disjoint _ _); reflexivity.
Qed.

Lemma TestAxes_false_iff (l : list (Vector3 F)) :
  TestAxes a b l = false <->
  exists i, i < length l /\ separated_on a b (nth i l Vector3Zero) = true.
Proof.
  induction l as [|v l IH]; simpl.
  - split; [discriminate|]. intros (i & Hi & _). lia.
  - rewrite BoundsOverlap_disjoint, negb_involutive.
    destruct (separated_on a b v) eqn:Hv.
    + split; [|reflexivity]. intros _. exists 0. split; [lia|exact Hv].
    + rewrite IH. split.
      * intros (i & Hi & Hs). exists (S i). split; [lia|exact Hs].
      * intros (i & Hi & Hs). destruct i as [|i]; [congruence|].
        exists i. split; [lia|exact Hs].
Qed.

Lemma nth_firstn_lt (l : list (Vector3 F)) (i n : nat) :
  i < n -> nth i (firstn n l) Vector3Zero = nth i l Vector3Zero.
Proof.
  revert i l. induction n as [|n IH]; intros i l Hi; [lia|].
  destruct l as [|v l]; [destruct i; reflexivity|].
  destruct i as [|i]; [reflexivity|]. simpl. apply IH. lia.
Qed.

(** The loop stops at a separating axis: the cells behind it play no part. *)
Lemma TestAxes_stops (l : list (Vector3 F)) (i : nat) :
  i < length l -> separated_on a b (nth i l Vector3Zero) = true ->
  TestAxes a b (firstn (S i) l) = false.
Proof.
  intros Hi Hs. apply TestAxes_false_iff. exists i.
  rewrite length_firstn. split; [lia|].
  rewrite nth_firstn_lt by lia. exact Hs.
Qed.

(** [GetCollisionCorrection] is the zero vector when some axis has overlap
    zero, and the running minimum otherwise. *)
Lemma CorrectionLoop_eq (l : list (Vector3 F)) (m : F) (d : Vector3 F) :
  CorrectionLoop a b l m d =
  if existsb (fun v => (overlap_on a b v == fzero)%fl) l then Vector3Zero
  else let st := running_min a b l (m, d) in Vector3Scale (snd st) (fst st).
Proof.
  revert m d. induction l as [|v l IH]; intros m d; [reflexivity|].
  cbn [CorrectionLoop existsb].
  destruct (overlap_on a b v == fzero)%fl; cbn [orb]; [reflexivity|].
  change (running_min a b (v :: l) (m, d))
    with (running_min a b l (keep_smaller a b (m, d) v)).
  unfold keep_smaller; cbn [fst].
  destruct (fabs (overlap_on a b v) < fabs m)%fl; apply IH.
Qed.

(** A zero overlap ends the loop with the zero vector, whatever follows. *)
Lemma CorrectionLoop_zero (l : list (Vector3 F)) (m : F) (d : Vector3 F) (i : nat) :
  i < length l -> (overlap_on a b (nth i l Vector3Zero) == fzero)%fl = true ->
  CorrectionLoop a b l m d = Vector3Zero.
Proof.
  intros Hi Hz. rewrite CorrectionLoop_eq.
  assert (existsb (fun v => (overlap_on a b v == fzero)%fl) l = true) as ->;
    [|reflexivity].
  apply existsb_exists. exists (nth i l Vector3Zero). split; [|exact Hz].
  apply nth_In. exact Hi.
Qed.

Lemma existsb_nth_false (f : Vector3 F -> bool) (l : list (Vector3 F)) :
  (forall i, i < length l -> f (nth i l Vector3Zero) = false) ->
  existsb f l = false.
Proof.
  intros H. destruct (existsb f l) eqn:E; [|reflexivity].
  apply existsb_exists in E. destruct E as (v & Hin & Hv).
  destruct (In_nth _ _ Vector3Zero Hin) as (i & Hi & <-).
  rewrite H in Hv by exact Hi. discriminate.
Qed.

Lemma running_min_app (l1 l2 : list (Vector3 F)) (st : F * Vector3 F) :
  running_min a b (l1 ++ l2) st = running_min a b l2 (running_min a b l1 st).
Proof. apply fold_left_app. Qed.

(** Overlaps that are not smaller than the current minimum leave it alone. *)
Lemma running_min_unchanged (l : list (Vector3 F)) (st : F * Vector3 F) :
  (forall i, i < length l ->
     (fabs (overlap_on a b (nth i l Vector3Zero)) < fabs (fst st))%fl = false) ->
  running_min a b l st = st.
Proof.
  induction l as [|v l IH]; intros H; [reflexivity|].
  change (running_min a b (v :: l) st)
    with (running_min a b l (keep_smaller a b st v)).
  assert (keep_smaller a b st v = st) as ->.
  { assert (H0 := H 0 (Nat.lt_0_succ _)). cbn [nth] in H0.
    unfold keep_smaller. rewrite H0. reflexivity. }
  apply IH. intros i Hi. apply (H (S i)). simpl. lia.
Qed.

Section Ordered.
(** Two facts about [<] that hold of the reals and, NaNs included, of IEEE
    floats. *)
Hypothesis flt_trans : forall x y z : F,
  (x < y)%fl = true -> (y < z)%fl = true -> (x < z)%fl = true.
Hypothesis flt_comparable : forall x y u w : F,
  (x < u)%fl = true -> (y < w)%fl = true ->
  (x < y)%fl = true \/ (x == y)%fl = true \/ (y < x)%fl = true.

(** The running minimum is the state it started from, or one of the axes
    with its overlap, then smaller than the initial bound. *)
Lemma running_min_cases (l : list (Vector3 F)) (st : F * Vector3 F) :
  running_min a b l st = st \/
  exists i, i < length l /\
    running_min a b l st = (overlap_on a b (nth i l Vector3Zero), nth i l Vector3Zero) /\
    (fabs (overlap_on a b (nth i l Vector3Zero)) < fabs (fst st))%fl = true.
Proof.
  induction l as [|v l IH] using rev_ind; [left; reflexivity|].
  rewrite running_min_app. cbn [running_min fold_left].
  fold (running_min a b l st). rewrite length_app. cbn [length].
  unfold keep_smaller.
  destruct (fabs (overlap_on a b v) < fabs (fst (running_min a b l st)))%fl eqn:Hlt.
  - right. exists (length l). split; [lia|].
    rewrite app_nth2, Nat.sub_diag by lia. cbn [nth]. split; [reflexivity|].
    destruct IH as [E | (i & Hi & E & Hi2)].
    + rewrite E in Hlt. exact Hlt.
    + rewrite E in Hlt. cbn [fst] in Hlt. exact (flt_trans _ _ _ Hlt Hi2).
  - destruct IH as [E | (i & Hi & E & Hi2)]; [left; exact E|].
    right. exists i. split; [lia|]. rewrite app_nth1 by lia. split; assumption.
Qed.

(** The axis kept is the first one whose overlap has the least absolute
    value, provided that value is below the initial bound. *)
Lemma running_min_first_least (l : list (Vector3 F)) (st : F * Vector3 F) (i : nat) :
  i < length l ->
  (fabs (overlap_on a b (nth i l Vector3Zero)) < fabs (fst st))%fl = true ->
  (forall k, k < length l ->
     (fabs (overlap_on a b (nth k l Vector3Zero))
      < fabs (overlap_on a b (nth i l Vector3Zero)))%fl = false) ->
  (forall j, j < i ->
     (fabs (overlap_on a b (nth i l Vector3Zero))
      == fabs (overlap_on a b (nth j l Vector3Zero)))%fl = false) ->
  running_min a b l st = (overlap_on a b (nth i l Vector3Zero), nth i l Vector3Zero).
Proof.
  intros Hi Hbound Hleast Hfirst.
  set (vi := nth i l Vector3Zero) in *.
  assert (Hsplit : l = firstn i l ++ vi :: skipn (S i) l).
  { rewrite <- (firstn_skipn i l) at 1. f_equal.
    clear -Hi. subst vi. revert l Hi. induction i as [|i IH]; intros [|v l] Hi;
      simpl in *; try lia; [reflexivity|]. apply IH. lia. }
  assert (Hpre : length (firstn i l) = i) by (rewrite length_firstn; lia).
  rewrite Hsplit, running_min_app.
  change (running_min a b (vi :: skipn (S i) l) (running_min a b (firstn i l) st))
    with (running_min a b (skipn (S i) l)
            (keep_smaller a b (running_min a b (firstn i l) st) vi)).
  assert (Hkeep : keep_smaller a b (running_min a b (firstn i l) st) vi
                  = (overlap_on a b vi, vi)).
  { unfold keep_smaller.
    destruct (running_min_cases (firstn i l) st) as [E | (j & Hj & E & Hj2)].
    - rewrite E, Hbound. reflexivity.
    - rewrite Hpre in Hj. rewrite nth_firstn_lt in E, Hj2 by exact Hj.
      rewrite E. cbn [fst].
      destruct (flt_comparable _ _ _ _ Hbound Hj2) as [H | [H | H]].
      + rewrite H. reflexivity.
      + rewrite (Hfirst j Hj) in H. discriminate.
      + rewrite (Hleast j) in H by lia. discriminate. }
  rewrite Hkeep. apply running_min_unchanged. cbn [fst].
  intros k Hk. rewrite length_skipn in Hk.
  replace (nth k (skipn (S i) l) Vector3Zero) with (nth (S i + k) l Vector3Zero).
  - apply Hleast. lia.
  - rewrite <- (firstn_skipn (S i) l) at 1.
    rewrite app_nth2; rewrite length_firstn; [|lia].
    f_equal. lia.
Qed.
End Ordered.
End Generic.

(** ** Intervals that touch *)

Section Touch.
Context {F : Type} {ops : FloatOps F}.
Variable finite : F -> bool.
Hypothesis flt_irrefl : forall x : F, (x < x)%fl = false.
Hypothesis flt_trans : forall x y z : F,
  (x < y)%fl = true -> (y < z)%fl = true -> (x < z)%fl = true.
Hypothesis feq_not_lt : forall x y : F, (x == y)%fl = true -> (x < y)%fl = false.
Hypothesis feq_lt_l : forall x y z : F, (x == y)%fl = true -> (x < z)%fl = (y < z)%fl.
Hypothesis feq_lt_r : forall x y z : F, (x == y)%fl = true -> (z < x)%fl = (z < y)%fl.
Hypothesis feq_sym : forall x y : F, (x == y)%fl = (y == x)%fl.
Hypothesis fsub_eq_zero : forall x y : F,
  (x == y)%fl = true -> finite x = true -> ((y - x) == fzero)%fl = true.
Hypothesis feqb_zero_zero : ((fzero : F) == fzero)%fl = true.
Hypothesis bounds_lo : forall (col : Collider F) (v : Vector3 F) (z : F),
  (z < v2_x (GetColliderProjectionBounds col v))%fl = true ->
  (z < v2_y (GetColliderProjectionBounds col v))%fl = true.
Variables a b : Collider F.

Lemma bounds_not_reversed (col : Collider F) (v : Vector3 F) :
  (v2_y (GetColliderProjectionBounds col v)
   < v2_x (GetColliderProjectionBounds col v))%fl = false.
Proof.
  destruct (_ < _)%fl eqn:E; [|reflexivity].
  apply bounds_lo in E. rewrite flt_irrefl in E. discriminate.
Qed.

Lemma clean_touch_not_separated (v : Vector3 F) :
  clean_touch finite (GetColliderProjectionBounds a v) (GetColliderProjectionBounds b v) ->
  separated_on a b v = false.
Proof.
  unfold disjoint. intros [[He _] | (He & Hlt & _)].
  - rewrite (feq_not_lt _ _ He), orb_false_r.
    destruct (v2_y (GetColliderProjectionBounds b v)
              < v2_x (GetColliderProjectionBounds a v))%fl eqn:E; [|reflexivity].
    apply (bounds_lo a v) in E.
    rewrite (feq_lt_r _ _ _ He) in E.
    rewrite (bounds_not_reversed b v) in E. discriminate.
  - rewrite (feq_not_lt _ _ He), orb_false_l.
    destruct (v2_y (GetColliderProjectionBounds a v)
              < v2_x (GetColliderProjectionBounds b v))%fl eqn:E; [|reflexivity].
    pose proof (flt_trans _ _ _ E Hlt) as C.
    rewrite (bounds_not_reversed a v) in C. discriminate.
Qed.

Lemma clean_touch_overlap_zero (v : Vector3 F) :
  clean_touch finite (GetColliderProjectionBounds a v) (GetColliderProjectionBounds b v) ->
  (overlap_on a b v == fzero)%fl = true.
Proof.
  unfold GetOverlap. intros [[He Hf] | (He & Hlt & Hf)].
  - destruct (v2_x (GetColliderProjectionBounds a v)
              > v2_y (GetColliderProjectionBounds b v))%fl; [exact feqb_zero_zero|].
    destruct (v2_x (GetColliderProjectionBounds b v)
              > v2_y (GetColliderProjectionBounds a v))%fl; [exact feqb_zero_zero|].
    rewrite <- (feq_lt_l _ _ _ He). rewrite (bounds_not_reversed a v).
    apply fsub_eq_zero; [exact He | exact Hf].
  - destruct (v2_x (GetColliderProjectionBounds a v)
              > v2_y (GetColliderProjectionBounds b v))%fl; [exact feqb_zero_zero|].
    destruct (v2_x (GetColliderProjectionBounds b v)
              > v2_y (GetColliderProjectionBounds a v))%fl; [exact feqb_zero_zero|].
    rewrite Hlt. apply fsub_eq_zero; [|exact Hf]. rewrite feq_sym. exact He.
Qed.

(** One axis touches cleanly, the others do not separate the colliders:
    the test says they overlap, the correction is the zero vector. *)
Lemma clean_touch_pair (i : nat) :
  i < 15 ->
  clean_touch finite (GetColliderProjectionBounds a (axis a b i))
                     (GetColliderProjectionBounds b (axis a b i)) ->
  (forall k, k < 15 -> k <> i -> separated_on a b (axis a b k) = false) ->
  TestColliderPair a b = true /\ GetCollisionCorrection a b = Vector3Zero.
Proof.
  intros Hi Ht Hothers. split.
  - destruct (TestColliderPair a b) eqn:E; [reflexivity|].
    unfold TestColliderPair in E. apply TestAxes_false_iff in E.
    destruct E as (k & Hk & Hs). rewrite GetCollisionVectors_length in Hk.
    destruct (Nat.eq_dec k i) as [-> | Hne].
    + rewrite (clean_touch_not_separated Ht) in Hs. discriminate.
    + rewrite (Hothers k Hk Hne) in Hs. discriminate.
  - apply (CorrectionLoop_zero a b _ _ _ (i := i)).
    + rewrite GetCollisionVectors_length. exact Hi.
    + apply clean_touch_overlap_zero, Ht.
Qed.
End Touch.

Unset Implicit Arguments.

(** ** The order of IEEE floats *)

(** [SFcompare] is decided by the signs, then the exponents, then the
    mantissas: each fact below is a case analysis on the operands. *)
Ltac cmp_dec :=
  repeat match goal with
  | H : context [Pos.compare_cont Eq ?p ?q] |- _ =>
      change (Pos.compare_cont Eq p q) with (Pos.compare p q) in H
  | |- context [Pos.compare_cont Eq ?p ?q] =>
      change (Pos.compare_cont Eq p q) with (Pos.compare p q)
  end;
  repeat match goal with
  | H : context [Z.compare ?p ?q] |- _ => destruct (Z.compare_spec p q); simpl in H
  | |- context [Z.compare ?p ?q] => destruct (Z.compare_spec p q); simpl
  | H : context [Pos.compare ?p ?q] |- _ => destruct (Pos.compare_spec p q); simpl in H
  | |- context [Pos.compare ?p ?q] => destruct (Pos.compare_spec p q); simpl
  end;
  subst; try discriminate; try reflexivity; try lia.

Ltac sf_cases :=
  repeat match goal with
  | x : spec_float |- _ => destruct x
  end;
  repeat match goal with
  | s : bool |- _ => destruct s
  end;
  simpl in *; try discriminate; try reflexivity.

Lemma SFltb_trans (x y z : spec_float) :
  SFltb x y = true -> SFltb y z = true -> SFltb x z = true.
Proof. unfold SFltb. sf_cases; cmp_dec. Qed.

Lemma SFltb_irrefl (x : spec_float) : SFltb x x = false.
Proof. unfold SFltb. sf_cases; cmp_dec. Qed.

Lemma SFltb_not_nan (x y : spec_float) :
  SFltb x y = true -> SFeqb x x = true /\ SFeqb y y = true.
Proof. unfold SFltb, SFeqb. sf_cases; cmp_dec; split; cmp_dec. Qed.

Lemma SFeqb_not_nan (x y : spec_float) :
  SFeqb x y = true -> SFeqb x x = true /\ SFeqb y y = true.
Proof. unfold SFeqb. sf_cases; cmp_dec; split; cmp_dec. Qed.

Lemma SF_trichotomy (x y : spec_float) :
  SFeqb x x = true -> SFeqb y y = true ->
  SFltb x y = true \/ SFeqb x y = true \/ SFltb y x = true.
Proof. unfold SFltb, SFeqb. sf_cases; intros; cmp_dec; auto. Qed.

Lemma SFeqb_sym (x y : spec_float) : SFeqb x y = SFeqb y x.
Proof. unfold SFeqb. sf_cases; cmp_dec. Qed.

Lemma SFeqb_compare_l (x y z : spec_float) :
  SFeqb x y = true -> SFcompare x z = SFcompare y z.
Proof. unfold SFeqb. sf_cases; intros; cmp_dec. Qed.

Lemma SFeqb_compare_r (x y z : spec_float) :
  SFeqb x y = true -> SFcompare z x = SFcompare z y.
Proof. unfold SFeqb. sf_cases; intros; cmp_dec. Qed.

Lemma SFleb_ltb_eqb (x y : spec_float) : SFleb x y = SFltb x y || SFeqb x y.
Proof. unfold SFleb, SFltb, SFeqb. destruct (SFcompare x y) as [[]|]; reflexivity. Qed.

Lemma SFleb_trans (x y z : spec_float) :
  SFleb x y = true -> SFleb y z = true -> SFleb x z = true.
Proof. unfold SFleb. sf_cases; cmp_dec. Qed.

Lemma SFltb_leb_trans (x y z : spec_float) :
  SFltb x y = true -> SFleb y z = true -> SFltb x z = true.
Proof. unfold SFleb, SFltb. sf_cases; cmp_dec. Qed.

Lemma SFleb_ltb_trans (x y z : spec_float) :
  SFleb x y = true -> SFltb y z = true -> SFltb x z = true.
Proof. unfold SFleb, SFltb. sf_cases; cmp_dec. Qed.

Lemma SFleb_not_nan (x y : spec_float) :
  SFleb x y = true -> SFeqb x x = true /\ SFeqb y y = true.
Proof. unfold SFleb, SFeqb. sf_cases; cmp_dec; split; cmp_dec. Qed.

Lemma SFleb_total (x y : spec_float) :
  SFeqb x x = true -> SFeqb y y = true -> SFltb y x = false -> SFleb x y = true.
Proof. unfold SFleb, SFltb, SFeqb. sf_cases; intros; cmp_dec. Qed.

(** [y - x] is a zero when [x == y] and neither is an infinity. *)
Lemma SFsub_eq_zero (prec emax : Z) (x y : spec_float) :
  SFeqb x y = true -> SFfinite x = true ->
  SFeqb (SFsub prec emax y x) (S754_zero false) = true.
Proof.
  unfold SFeqb. sf_cases; intros; cmp_dec.
  all: unfold shl_align; rewrite Z.min_id, Z.sub_diag; simpl;
    try rewrite Z.pos_sub_diag; reflexivity.
Qed.

(** The two facts the running minimum needs. *)
Lemma b32_flt_trans (x y z : spec_float) :
  (x < y)%fl = true -> (y < z)%fl = true -> (x < z)%fl = true.
Proof. exact (SFltb_trans x y z). Qed.

Lemma b32_flt_comparable (x y u w : spec_float) :
  (x < u)%fl = true -> (y < w)%fl = true ->
  (x < y)%fl = true \/ (x == y)%fl = true \/ (y < x)%fl = true.
Proof.
  intros Hx Hy. apply SF_trichotomy.
  - exact (proj1 (SFltb_not_nan _ _ Hx)).
  - exact (proj1 (SFltb_not_nan _ _ Hy)).
Qed.

Lemma b32_widen_ordered (B : Vector2 spec_float) (p : spec_float) :
  b32_ordered B -> b32_ordered (widen B p).
Proof.
  destruct B as [mn mx]. unfold b32_ordered, widen, fmin, fmax, fisnan.
  cbn [v2_x v2_y feqb fltb binary32].
  intros [[H1 H2] | H].
  - rewrite H1, H2. cbn [negb]. rewrite SFleb_ltb_eqb.
    destruct (SFeqb p p); [right; apply orb_true_r | left; split; reflexivity].
  - destruct (SFleb_not_nan _ _ H) as [Hmn Hmx]. rewrite Hmn, Hmx. cbn [negb].
    destruct (SFeqb p p) eqn:Hp; cbn [negb]; [|right; exact H].
    right.
    destruct (SFltb p mn) eqn:Hlo, (SFltb mx p) eqn:Hhi.
    + rewrite SFleb_ltb_eqb, Hp. apply orb_true_r.
    + rewrite SFleb_ltb_eqb, (SFltb_leb_trans _ _ _ Hlo H). reflexivity.
    + rewrite SFleb_ltb_eqb, (SFleb_ltb_trans _ _ _ H Hhi). reflexivity.
    + exact H.
Qed.

Lemma b32_bounds_ordered (col : Collider spec_float) (v : Vector3 spec_float) :
  b32_ordered (GetColliderProjectionBounds col v).
Proof.
  rewrite GetColliderProjectionBounds_fold. cbv zeta.
  set (p0 := Vector3DotProduct _ _).
  assert (H0 : b32_ordered (mkVector2 p0 p0)).
  { unfold b32_ordered. cbn [v2_x v2_y]. rewrite SFleb_ltb_eqb, SFltb_irrefl.
    destruct (SFeqb p0 p0); auto. }
  revert H0. generalize (mkVector2 p0 p0). generalize (projections col v).
  intros l. induction l as [|p l IH]; intros B HB; [exact HB|].
  apply IH, b32_widen_ordered, HB.
Qed.

Lemma b32_bounds_not_reversed (col : Collider spec_float) (v : Vector3 spec_float) :
  let B := GetColliderProjectionBounds col v in
  (v2_y B < v2_x B)%fl = false.
Proof.
  intros B. destruct (b32_bounds_ordered col v) as [[H _] | H]; fold B in H.
  - cbn [fltb binary32]. destruct (SFltb (v2_y B) (v2_x B)) eqn:E; [|reflexivity].
    apply SFltb_not_nan in E. destruct E as [_ E]. congruence.
  - cbn [fltb binary32]. destruct (SFltb (v2_y B) (v2_x B)) eqn:E; [|reflexivity].
    pose proof (SFltb_leb_trans _ _ _ E H) as C.
    rewrite SFltb_irrefl in C. discriminate.
Qed.

(** ** [GetCollisionCorrection], for an arithmetic whose [<] is an order *)

Section Correction.
Context {F : Type} {ops : FloatOps F}.
Hypothesis flt_trans : forall x y z : F,
  (x < y)%fl = true -> (y < z)%fl = true -> (x < z)%fl = true.
Hypothesis flt_comparable : forall x y u w : F,
  (x < u)%fl = true -> (y < w)%fl = true ->
  (x < y)%fl = true \/ (x == y)%fl = true \/ (y < x)%fl = true.
Hypothesis fmul_zero_hundred : (fzero * fhundred)%fl = fzero.
Hypothesis feqb_zero_zero : (fzero == fzero)%fl = true.
Variables a b : Collider F.

(** A separating axis: overlap [0.f], and the loop returns the zero vector
    when it reaches that axis, if not before. *)
Lemma GetCollisionCorrection_separated (i : nat) :
  i < 15 -> separated_on a b (axis a b i) = true ->
  depth a b i = fzero /\
  CorrectionLoop a b (firstn (S i) (GetCollisionVectors a b))
                 fhundred (mkVector3 fzero fzero fzero) = Vector3Zero /\
  GetCollisionCorrection a b = Vector3Zero.
Proof.
  intros Hi Hs.
  assert (Hd : depth a b i = fzero) by (apply GetOverlap_disjoint; exact Hs).
  split; [exact Hd|]. split.
  - apply (CorrectionLoop_zero a b _ _ _ (i := i)).
    + rewrite length_firstn, GetCollisionVectors_length. lia.
    + rewrite nth_firstn_lt by lia. rewrite Hd. exact feqb_zero_zero.
  - apply (CorrectionLoop_zero a b _ _ _ (i := i)).
    + rewrite GetCollisionVectors_length. exact Hi.
    + rewrite Hd. exact feqb_zero_zero.
Qed.

Lemma no_zero_depth :
  (forall k, k < 15 -> (depth a b k == fzero)%fl = false) ->
  existsb (fun v => (overlap_on a b v == fzero)%fl) (GetCollisionVectors a b) = false.
Proof.
  intros H. apply existsb_nth_false. intros i Hi.
  rewrite GetCollisionVectors_length in Hi. exact (H i Hi).
Qed.

(** What the function can return. *)
Lemma GetCollisionCorrection_cases :
  GetCollisionCorrection a b = Vector3Zero \/
  exists i, i < 15 /\
    GetCollisionCorrection a b = Vector3Scale (axis a b i) (depth a b i) /\
    (fabs (depth a b i) < fabs fhundred)%fl = true /\
    (depth a b i == fzero)%fl = false.
Proof.
  unfold GetCollisionCorrection. rewrite CorrectionLoop_eq.
  destruct (existsb _ _) eqn:Hex; [left; reflexivity|]. cbv zeta.
  destruct (running_min_cases a b flt_trans (GetCollisionVectors a b)
              (fhundred, mkVector3 fzero fzero fzero)) as [E | (i & Hi & E & Hlt)].
  - left. rewrite E. unfold Vector3Scale, Vector3Zero. cbn [fst snd v3_x v3_y v3_z].
    rewrite fmul_zero_hundred. reflexivity.
  - right. exists i.
    pose proof (existsb_nth _ _ Vector3Zero Hi Hex) as Hnz.
    rewrite GetCollisionVectors_length in Hi.
    split; [exact Hi|]. rewrite E. repeat split; assumption.
Qed.

(** No overlap below the initial bound: the zero vector. *)
Lemma GetCollisionCorrection_capped :
  (forall k, k < 15 -> (fabs (depth a b k) < fabs fhundred)%fl = false) ->
  GetCollisionCorrection a b = Vector3Zero.
Proof.
  intros H. unfold GetCollisionCorrection. rewrite CorrectionLoop_eq.
  destruct (existsb _ _); [reflexivity|]. cbv zeta.
  rewrite running_min_unchanged.
  - unfold Vector3Scale, Vector3Zero. cbn [fst snd v3_x v3_y v3_z].
    rewrite fmul_zero_hundred. reflexivity.
  - intros i Hi. rewrite GetCollisionVectors_length in Hi. exact (H i Hi).
Qed.

(** The first axis of least absolute overlap is the one returned. *)
Lemma GetCollisionCorrection_first_least (i : nat) :
  i < 15 ->
  (forall k, k < 15 -> (depth a b k == fzero)%fl = false) ->
  (fabs (depth a b i) < fabs fhundred)%fl = true ->
  (forall k, k < 15 -> (fabs (depth a b k) < fabs (depth a b i))%fl = false) ->
  (forall j, j < i -> (fabs (depth a b i) == fabs (depth a b j))%fl = false) ->
  GetCollisionCorrection a b = Vector3Scale (axis a b i) (depth a b i).
Proof.
  intros Hi Hnz Hbound Hleast Hfirst.
  unfold GetCollisionCorrection. rewrite CorrectionLoop_eq, (no_zero_depth Hnz).
  cbv zeta.
  rewrite (running_min_first_least a b flt_trans flt_comparable
             (GetCollisionVectors a b) (fhundred, mkVector3 fzero fzero fzero) (i := i)).
  - reflexivity.
  - rewrite GetCollisionVectors_length. exact Hi.
  - exact Hbound.
  - intros k Hk. rewrite GetCollisionVectors_length in Hk. exact (Hleast k Hk).
  - exact Hfirst.
Qed.
End Correction.

(** The order facts in the form the lemmas on touching intervals take. *)
Lemma b32_feq_not_lt (x y : spec_float) : (x == y)%fl = true -> (x < y)%fl = false.
Proof.
  cbn [feqb fltb binary32]. unfold SFeqb, SFltb.
  destruct (SFcompare x y) as [[]|]; intros H; try discriminate; reflexivity.
Qed.

Lemma b32_feq_lt_l (x y z : spec_float) :
  (x == y)%fl = true -> (x < z)%fl = (y < z)%fl.
Proof.
  intros H. cbn [fltb binary32]. unfold SFltb.
  rewrite (SFeqb_compare_l x y z H). reflexivity.
Qed.

Lemma b32_feq_lt_r (x y z : spec_float) :
  (x == y)%fl = true -> (z < x)%fl = (z < y)%fl.
Proof.
  intros H. cbn [fltb binary32]. unfold SFltb.
  rewrite (SFeqb_compare_r x y z H). reflexivity.
Qed.

Lemma b32_fsub_eq_zero (x y : spec_float) :
  (x == y)%fl = true -> SFfinite x = true -> ((y - x) == fzero)%fl = true.
Proof. exact (SFsub_eq_zero b32_prec b32_emax x y). Qed.

Lemma b32_bounds_lo (col : Collider spec_float) (v : Vector3 spec_float) (z : spec_float) :
  (z < v2_x (GetColliderProjectionBounds col v))%fl = true ->
  (z < v2_y (GetColliderProjectionBounds col v))%fl = true.
Proof.
  cbn [fltb binary32]. intros H.
  destruct (b32_bounds_ordered col v) as [[Hnan _] | Hle].
  - apply SFltb_not_nan in H. destruct H as [_ H]. congruence.
  - exact (SFltb_leb_trans _ _ _ H Hle).
Qed.

(** ** Swapping the two colliders *)

Section Swap.
Context {F : Type} {ops : FloatOps F}.

Lemma disjoint_sym (A B : Vector2 F) : disjoint B A = disjoint A B.
Proof. unfold disjoint. apply orb_comm. Qed.

(** The test on one axis does not depend on the order of the colliders. *)
Lemma separated_on_sym (a b : Collider F) (v : Vector3 F) :
  separated_on b a v = separated_on a b v.
Proof. apply disjoint_sym. Qed.

(** Swapping the colliders permutes the six face axes and exchanges the
    factors of each cross axis: when the test on a cross axis does not
    depend on the order of its factors, the two calls agree. *)
Hypothesis cross_swap : forall (a b : Collider F) (p q : Vector3 F),
  separated_on b a (CrossAxis q p) = separated_on a b (CrossAxis p q).

Lemma TestColliderPair_swap (a b : Collider F) :
  TestColliderPair a b = TestColliderPair b a.
Proof.
  unfold TestColliderPair. rewrite !TestAxes_forallb, !GetCollisionVectors_eq.
  cbv zeta.
  generalize (Vector3Transform unitX (matRotate a)) (Vector3Transform unitY (matRotate a))
    (Vector3Transform unitZ (matRotate a)) (Vector3Transform unitX (matRotate b))
    (Vector3Transform unitY (matRotate b)) (Vector3Transform unitZ (matRotate b)).
  intros ax ay az bx by_ bz. cbn [forallb].
  rewrite (cross_swap a b ax bx), (cross_swap a b ax by_), (cross_swap a b ax bz),
    (cross_swap a b ay bx), (cross_swap a b ay by_), (cross_swap a b ay bz),
    (cross_swap a b az bx), (cross_swap a b az by_), (cross_swap a b az bz).
  rewrite (separated_on_sym a b ax), (separated_on_sym a b ay), (separated_on_sym a b az),
    (separated_on_sym a b bx), (separated_on_sym a b by_), (separated_on_sym a b bz).
  repeat match goal with
  | |- context [disjoint ?A ?B] =>
      let t := fresh "t" in generalize (disjoint A B); intros t
  end.
  btauto.
Qed.
End Swap.

(** ** IEEE floats: the opposite direction *)

(** Exchanging the factors of a cross product gives, coordinate by
    coordinate, the opposite float or another zero; rounding is symmetric
    about zero, so this is kept by the products and sums that follow, and
    the order of two floats is reversed. *)

(** The two ways in which a hypothesis [mirror x y] holds. *)
Ltac mirror_cases :=
  repeat match goal with
  | H : mirror _ _ |- _ => destruct H as [-> | [? ?]]
  end.

Lemma mirror_sym (x y : spec_float) : mirror x y -> mirror y x.
Proof.
  intros [-> | [H1 H2]]; [left | right; auto].
  destruct x; simpl; rewrite ?negb_involutive; reflexivity.
Qed.

Lemma SFabs_mirror (x y : spec_float) : mirror x y -> SFabs y = SFabs x.
Proof. intros H. mirror_cases; destruct x; try destruct y; try discriminate; reflexivity. Qed.

Lemma SFeqb_mirror (x y : spec_float) : mirror x y -> SFeqb y y = SFeqb x x.
Proof.
  intros H. mirror_cases; unfold SFeqb.
  - sf_cases; cmp_dec.
  - destruct x, y; try discriminate; reflexivity.
Qed.

Lemma SFltb_mirror (x x' y y' : spec_float) :
  mirror x x' -> mirror y y' -> SFltb x' y' = SFltb y x.
Proof.
  intros Hx Hy. mirror_cases; unfold SFltb.
  - sf_cases; cmp_dec.
  - destruct x, x'; try discriminate; sf_cases.
  - destruct y, y'; try discriminate; sf_cases.
  - destruct x, x', y, y'; try discriminate. reflexivity.
Qed.

Section Rounding.
Variables prec emax : Z.

Lemma binary_round_aux_opp (s : bool) (m e : Z) (l : location) :
  binary_round_aux prec emax (negb s) m e l = SFopp (binary_round_aux prec emax s m e l).
Proof.
  unfold binary_round_aux.
  destruct (shr_fexp prec emax m e l) as [r1 e1].
  destruct (shr_fexp prec emax _ e1 loc_Exact) as [r2 e2].
  destruct (shr_m r2); [reflexivity | | reflexivity].
  destruct (Z.leb _ _); reflexivity.
Qed.

Lemma binary_round_opp (s : bool) (m : positive) (e : Z) :
  binary_round prec emax (negb s) m e = SFopp (binary_round prec emax s m e).
Proof.
  unfold binary_round. destruct (shl_align _ _ _) as [mz ez].
  apply binary_round_aux_opp.
Qed.

Lemma binary_normalize_opp (m e : Z) :
  mirror (binary_normalize prec emax m e false) (binary_normalize prec emax (- m) e false).
Proof.
  destruct m as [|p|p]; cbn [Z.opp binary_normalize].
  - right. split; reflexivity.
  - left. apply (binary_round_opp false).
  - left. rewrite <- (binary_round_opp true). reflexivity.
Qed.

Lemma SFmul_comm (x y : spec_float) : SFmul prec emax x y = SFmul prec emax y x.
Proof.
  destruct x as [sx|sx| |sx mx ex], y as [sy|sy| |sy my ey]; cbn [SFmul];
    rewrite ?(xorb_comm sx sy); try reflexivity.
  rewrite (Pos.mul_comm mx my), (Z.add_comm ex ey). reflexivity.
Qed.

Lemma SFmul_opp_r (x y : spec_float) : SFmul prec emax x (SFopp y) = SFopp (SFmul prec emax x y).
Proof.
  destruct x as [sx|sx| |sx mx ex], y as [sy|sy| |sy my ey]; cbn [SFmul SFopp];
    rewrite <- ?negb_xorb_r; try reflexivity.
  apply binary_round_aux_opp.
Qed.

Lemma SFmul_mirror_r (p x y : spec_float) :
  mirror x y -> mirror (SFmul prec emax p x) (SFmul prec emax p y).
Proof.
  intros H. mirror_cases.
  - left. apply SFmul_opp_r.
  - destruct x as [sx| | |], y as [sy| | |]; try discriminate.
    destruct p; cbn [SFmul]; (left; reflexivity) || (right; split; reflexivity).
Qed.

Lemma SFmul_mirror_l (p x y : spec_float) :
  mirror x y -> mirror (SFmul prec emax x p) (SFmul prec emax y p).
Proof. intros H. rewrite (SFmul_comm x p), (SFmul_comm y p). apply SFmul_mirror_r, H. Qed.

Lemma SFmul_square (x y : spec_float) : mirror x y -> SFmul prec emax y y = SFmul prec emax x x.
Proof.
  intros H. mirror_cases.
  - destruct x as [[]|[]| |[] m e]; reflexivity.
  - destruct x as [[]| | |], y as [[]| | |]; try discriminate; reflexivity.
Qed.

Lemma SFsub_swap (x y : spec_float) : mirror (SFsub prec emax x y) (SFsub prec emax y x).
Proof.
  destruct x as [sx|sx| |sx mx ex], y as [sy|sy| |sy my ey]; cbn [SFsub].
  all: try (left; reflexivity).
  all: try (destruct sx, sy; (left; reflexivity) || (right; split; reflexivity)).
  all: try (left; cbn [SFopp]; rewrite ?negb_involutive; reflexivity).
  rewrite (Z.min_comm ey ex).
  set (X := cond_Zopp sx _). set (Y := cond_Zopp sy _).
  replace (Y - X)%Z with (- (X - Y))%Z by lia.
  apply binary_normalize_opp.
Qed.

Lemma SFadd_opp (x y : spec_float) :
  mirror (SFadd prec emax x y) (SFadd prec emax (SFopp x) (SFopp y)).
Proof.
  destruct x as [sx|sx| |sx mx ex], y as [sy|sy| |sy my ey]; cbn [SFadd SFopp].
  all: try (left; reflexivity).
  all: try (destruct sx, sy; (left; reflexivity) || (right; split; reflexivity)).
  set (ez := Z.min ex ey).
  replace (cond_Zopp (negb sx) (Z.pos (fst (shl_align mx ex ez))) +
           cond_Zopp (negb sy) (Z.pos (fst (shl_align my ey ez))))%Z
    with (- (cond_Zopp sx (Z.pos (fst (shl_align mx ex ez))) +
             cond_Zopp sy (Z.pos (fst (shl_align my ey ez)))))%Z
    by (destruct sx, sy; cbn [negb cond_Zopp]; lia).
  apply binary_normalize_opp.
Qed.

Lemma SFadd_mirror (a a' b b' : spec_float) :
  mirror a a' -> mirror b b' -> mirror (SFadd prec emax a b) (SFadd prec emax a' b').
Proof.
  intros Ha Hb. mirror_cases.
  - apply SFadd_opp.
  - destruct a as [[]| | |], a' as [[]| | |]; try discriminate;
      destruct b as [[]|[]| |[] m e]; cbn [SFadd SFopp negb];
      (left; reflexivity) || (right; split; reflexivity).
  - destruct b as [[]| | |], b' as [[]| | |]; try discriminate;
      destruct a as [[]|[]| |[] m e]; cbn [SFadd SFopp negb];
      (left; reflexivity) || (right; split; reflexivity).
  - destruct a as [[]| | |], a' as [[]| | |], b as [[]| | |], b' as [[]| | |];
      try discriminate; right; split; reflexivity.
Qed.
End Rounding.

Lemma b32_fisnan_mirror (x y : spec_float) : mirror x y -> fisnan y = fisnan x.
Proof. intros H. unfold fisnan. cbn [feqb binary32]. rewrite (SFeqb_mirror x y H). reflexivity. Qed.

Lemma b32_fmin_mirror (x x' y y' : spec_float) :
  mirror x x' -> mirror y y' -> mirror (fmax x y) (fmin x' y').
Proof.
  intros Hx Hy. unfold fmin, fmax.
  rewrite (b32_fisnan_mirror x x' Hx), (b32_fisnan_mirror y y' Hy).
  cbn [fltb binary32]. rewrite (SFltb_mirror y y' x x' Hy Hx).
  destruct (fisnan x); [exact Hy|]. destruct (fisnan y); [exact Hx|].
  destruct (SFltb x y); assumption.
Qed.

Lemma b32_fmax_mirror (x x' y y' : spec_float) :
  mirror x x' -> mirror y y' -> mirror (fmin x y) (fmax x' y').
Proof.
  intros Hx Hy. unfold fmin, fmax.
  rewrite (b32_fisnan_mirror x x' Hx), (b32_fisnan_mirror y y' Hy).
  cbn [fltb binary32]. rewrite (SFltb_mirror x x' y y' Hx Hy).
  destruct (fisnan x); [exact Hy|]. destruct (fisnan y); [exact Hx|].
  destruct (SFltb y x); assumption.
Qed.

Lemma b32_fmax_abs_comm (p q : spec_float) :
  fmax (SFabs p) (SFabs q) = fmax (SFabs q) (SFabs p).
Proof.
  unfold fmax, fisnan. cbn [feqb fltb binary32]. unfold SFeqb, SFltb.
  sf_cases; cmp_dec.
Qed.

Lemma b32_FloatNear_sym (p q : spec_float) : FloatNear p q = FloatNear q p.
Proof.
  unfold FloatNear. cbn [fabs fsub binary32].
  rewrite (SFabs_mirror _ _ (SFsub_swap b32_prec b32_emax p q)), (b32_fmax_abs_comm p q).
  reflexivity.
Qed.

Lemma b32_Vector3Equals_sym (p q : Vector3 spec_float) :
  Vector3Equals p q = Vector3Equals q p.
Proof.
  unfold Vector3Equals.
  rewrite (b32_FloatNear_sym (v3_x p)), (b32_FloatNear_sym (v3_y p)),
    (b32_FloatNear_sym (v3_z p)).
  reflexivity.
Qed.

Lemma b32_Vector3CrossProduct_swap (p q : Vector3 spec_float) :
  vmirror (Vector3CrossProduct p q) (Vector3CrossProduct q p).
Proof.
  unfold vmirror, Vector3CrossProduct. cbn [v3_x v3_y v3_z fmul fsub binary32].
  rewrite (SFmul_comm b32_prec b32_emax (v3_y q) (v3_z p)),
    (SFmul_comm b32_prec b32_emax (v3_z q) (v3_y p)),
    (SFmul_comm b32_prec b32_emax (v3_z q) (v3_x p)),
    (SFmul_comm b32_prec b32_emax (v3_x q) (v3_z p)),
    (SFmul_comm b32_prec b32_emax (v3_x q) (v3_y p)),
    (SFmul_comm b32_prec b32_emax (v3_y q) (v3_x p)).
  repeat split; apply SFsub_swap.
Qed.

Lemma b32_Vector3Normalize_mirror (w w' : Vector3 spec_float) :
  vmirror w w' -> vmirror (Vector3Normalize w) (Vector3Normalize w').
Proof.
  intros (Hx & Hy & Hz). unfold Vector3Normalize. cbn [fmul binary32].
  rewrite (SFmul_square b32_prec b32_emax _ _ Hx), (SFmul_square b32_prec b32_emax _ _ Hy),
    (SFmul_square b32_prec b32_emax _ _ Hz).
  destruct (negb _); [|repeat split; assumption].
  repeat split; cbn [v3_x v3_y v3_z]; apply SFmul_mirror_l; assumption.
Qed.

Lemma b32_Vector3DotProduct_mirror (p v v' : Vector3 spec_float) :
  vmirror v v' -> mirror (Vector3DotProduct p v) (Vector3DotProduct p v').
Proof.
  intros (Hx & Hy & Hz). unfold Vector3DotProduct. cbn [fadd fmul binary32].
  repeat apply SFadd_mirror; apply SFmul_mirror_r; assumption.
Qed.

Lemma b32_widen_flipped (B B' : Vector2 spec_float) (p p' : spec_float) :
  flipped B B' -> mirror p p' -> flipped (widen B p) (widen B' p').
Proof.
  intros [H1 H2] Hp. unfold flipped, widen. cbn [v2_x v2_y]. split.
  - apply b32_fmax_mirror; assumption.
  - apply b32_fmin_mirror; assumption.
Qed.

Lemma b32_fold_widen_flipped (l l' : list spec_float) (B B' : Vector2 spec_float) :
  Forall2 mirror l l' -> flipped B B' ->
  flipped (fold_left widen l B) (fold_left widen l' B').
Proof.
  intros Hl. revert B B'. induction Hl as [|p p' l l' Hp Hl IH]; intros B B' HB.
  - exact HB.
  - cbn [fold_left]. apply IH, b32_widen_flipped; assumption.
Qed.

Lemma b32_projections_mirror (col : Collider spec_float) (v v' : Vector3 spec_float) :
  vmirror v v' -> Forall2 mirror (projections col v) (projections col v').
Proof.
  intros H. unfold projections. induction (seq 1 (COLLIDER_VERTEX_COUNT - 1)) as [|i l IH].
  - constructor.
  - cbn [map]. constructor; [apply b32_Vector3DotProduct_mirror, H | exact IH].
Qed.

Lemma b32_GetColliderProjectionBounds_mirror (col : Collider spec_float)
  (v v' : Vector3 spec_float) :
  vmirror v v' ->
  flipped (GetColliderProjectionBounds col v) (GetColliderProjectionBounds col v').
Proof.
  intros H. rewrite !GetColliderProjectionBounds_fold. cbv zeta.
  apply b32_fold_widen_flipped.
  - apply b32_projections_mirror, H.
  - split; cbn [v2_x v2_y]; apply b32_Vector3DotProduct_mirror, H.
Qed.

Lemma b32_disjoint_flipped (A A' B B' : Vector2 spec_float) :
  flipped A A' -> flipped B B' -> disjoint A' B' = disjoint A B.
Proof.
  intros [HA1 HA2] [HB1 HB2]. unfold disjoint. cbn [fltb binary32].
  rewrite (SFltb_mirror _ _ _ _ HB1 HA2), (SFltb_mirror _ _ _ _ HA1 HB2).
  apply orb_comm.
Qed.

Lemma b32_separated_on_mirror (a b : Collider spec_float) (v v' : Vector3 spec_float) :
  vmirror v v' -> separated_on a b v' = separated_on a b v.
Proof.
  intros H. apply b32_disjoint_flipped; apply b32_GetColliderProjectionBounds_mirror, H.
Qed.

Lemma b32_separated_on_CrossAxis (a b : Collider spec_float) (p q : Vector3 spec_float) :
  separated_on b a (CrossAxis q p) = separated_on a b (CrossAxis p q).
Proof.
  rewrite (separated_on_sym a b (CrossAxis q p)).
  unfold CrossAxis. rewrite (b32_Vector3Equals_sym q p).
  destruct (Vector3Equals p q); [reflexivity|].
  apply b32_separated_on_mirror, b32_Vector3Normalize_mirror, b32_Vector3CrossProduct_swap.
Qed.

(** ** Exact arithmetic *)

Section Exact.
Local Open Scope R_scope.

Lemma exact_flt (x y : R) : (x < y)%fl = true <-> x < y.
Proof. cbn. unfold Rb. destruct (Rlt_dec x y); split; intros; auto; discriminate. Qed.

Lemma exact_flt_false (x y : R) : (x < y)%fl = false <-> y <= x.
Proof.
  cbn. unfold Rb. destruct (Rlt_dec x y); split; intros; auto; try discriminate; lra.
Qed.

Lemma exact_feq (x y : R) : (x == y)%fl = true <-> x = y.
Proof. cbn. unfold Rb. destruct (Req_dec_T x y); split; intros; auto; discriminate. Qed.

Lemma exact_feq_false (x y : R) : (x == y)%fl = false <-> x <> y.
Proof.
  cbn. unfold Rb. destruct (Req_dec_T x y); split; intros; auto; try discriminate.
  contradiction.
Qed.

Lemma exact_fle (x y : R) : (x <= y)%fl = true <-> x <= y.
Proof. cbn. unfold Rb. destruct (Rle_dec x y); split; intros; auto; discriminate. Qed.

Lemma exact_fmin (x y : R) : fmin x y = Rmin x y.
Proof.
  unfold fmin, fisnan. rewrite !(proj2 (exact_feq _ _) eq_refl). cbn [negb].
  unfold Rmin. destruct (Rle_dec x y) as [H|H].
  - rewrite (proj2 (exact_flt_false y x)) by exact H. reflexivity.
  - rewrite (proj2 (exact_flt y x)) by lra. reflexivity.
Qed.

Lemma exact_fmax (x y : R) : fmax x y = Rmax x y.
Proof.
  unfold fmax, fisnan. rewrite !(proj2 (exact_feq _ _) eq_refl). cbn [negb].
  unfold Rmax. destruct (Rle_dec x y) as [H|H].
  - destruct (Req_dec_T x y) as [E|E].
    + subst. rewrite (proj2 (exact_flt_false y y)) by lra. reflexivity.
    + rewrite (proj2 (exact_flt x y)) by lra. reflexivity.
  - rewrite (proj2 (exact_flt_false x y)) by lra. reflexivity.
Qed.

Lemma exact_flt_trans (x y z : R) :
  (x < y)%fl = true -> (y < z)%fl = true -> (x < z)%fl = true.
Proof. rewrite !exact_flt. lra. Qed.

Lemma exact_flt_comparable (x y u w : R) :
  (x < u)%fl = true -> (y < w)%fl = true ->
  (x < y)%fl = true \/ (x == y)%fl = true \/ (y < x)%fl = true.
Proof.
  intros _ _. rewrite !exact_flt, exact_feq.
  destruct (Rtotal_order x y) as [H | [H | H]]; auto.
Qed.

Lemma exact_fmul_zero_hundred : (fzero * fhundred)%fl = (fzero : R).
Proof. cbn. ring. Qed.

Lemma exact_feqb_zero_zero : ((fzero : R) == fzero)%fl = true.
Proof. apply exact_feq. reflexivity. Qed.
End Exact.

(** ** Exact arithmetic: the geometry *)

Section ExactGeometry.
Local Open Scope R_scope.

Lemma FloatNear_sym (p q : R) : FloatNear p q = FloatNear q p.
Proof.
  unfold FloatNear. cbn [fabs fsub fmul exact].
  rewrite !exact_fmax, (Rabs_minus_sym p q), (Rmax_comm (Rabs p) (Rabs q)).
  reflexivity.
Qed.

Lemma Vector3Equals_sym (p q : Vector3 R) : Vector3Equals p q = Vector3Equals q p.
Proof.
  unfold Vector3Equals.
  rewrite (FloatNear_sym (v3_x p)), (FloatNear_sym (v3_y p)), (FloatNear_sym (v3_z p)).
  reflexivity.
Qed.

Lemma Vector3CrossProduct_anti (p q : Vector3 R) :
  Vector3CrossProduct q p = vneg (Vector3CrossProduct p q).
Proof. unfold Vector3CrossProduct, vneg. cbn. f_equal; ring. Qed.

Lemma Vector3Normalize_vneg (w : Vector3 R) :
  Vector3Normalize (vneg w) = vneg (Vector3Normalize w).
Proof.
  unfold Vector3Normalize. cbn [vneg v3_x v3_y v3_z fmul fadd fsqrt fdiv exact].
  replace (- v3_x w * - v3_x w + - v3_y w * - v3_y w + - v3_z w * - v3_z w)
    with (v3_x w * v3_x w + v3_y w * v3_y w + v3_z w * v3_z w) by ring.
  destruct (negb _); [|reflexivity].
  unfold vneg. cbn [v3_x v3_y v3_z]. f_equal; ring.
Qed.

Lemma CrossAxis_swap (p q : Vector3 R) :
  CrossAxis q p = CrossAxis p q \/ CrossAxis q p = vneg (CrossAxis p q).
Proof.
  unfold CrossAxis. rewrite (Vector3Equals_sym q p).
  destruct (Vector3Equals p q); [left; reflexivity|].
  right. rewrite Vector3CrossProduct_anti. apply Vector3Normalize_vneg.
Qed.

Lemma Vector3DotProduct_vneg (p v : Vector3 R) :
  Vector3DotProduct p (vneg v) = - Vector3DotProduct p v.
Proof. unfold Vector3DotProduct, vneg. cbn. ring. Qed.

Lemma widen_negswap (B : Vector2 R) (p : R) :
  widen (negswap B) (- p) = negswap (widen B p).
Proof.
  unfold widen, negswap. cbn [v2_x v2_y]. rewrite !exact_fmin, !exact_fmax.
  f_equal.
  - unfold Rmin, Rmax.
    destruct (Rle_dec (- v2_y B) (- p)), (Rle_dec (v2_y B) p); lra.
  - unfold Rmin, Rmax.
    destruct (Rle_dec (- v2_x B) (- p)), (Rle_dec (v2_x B) p); lra.
Qed.

Lemma fold_widen_negswap (l : list R) (B : Vector2 R) :
  fold_left widen (map Ropp l) (negswap B) = negswap (fold_left widen l B).
Proof.
  revert B. induction l as [|p l IH]; intros B; [reflexivity|].
  cbn [map fold_left]. rewrite widen_negswap. apply IH.
Qed.

Lemma projections_vneg (col : Collider R) (v : Vector3 R) :
  projections col (vneg v) = map Ropp (projections col v).
Proof.
  unfold projections. rewrite map_map. apply map_ext. intros i.
  apply Vector3DotProduct_vneg.
Qed.

(** Seen along the opposite direction, an interval is mirrored. *)
Lemma GetColliderProjectionBounds_vneg (col : Collider R) (v : Vector3 R) :
  GetColliderProjectionBounds col (vneg v) =
  negswap (GetColliderProjectionBounds col v).
Proof.
  rewrite !GetColliderProjectionBounds_fold. cbv zeta.
  rewrite projections_vneg, Vector3DotProduct_vneg.
  apply (fold_widen_negswap (projections col v) (mkVector2 _ _)).
Qed.

Lemma disjoint_negswap (A B : Vector2 R) :
  disjoint (negswap A) (negswap B) = disjoint A B.
Proof.
  unfold disjoint, negswap. cbn [v2_x v2_y fltb exact]. unfold Rb.
  destruct (Rlt_dec (- v2_x B) (- v2_y A)), (Rlt_dec (- v2_x A) (- v2_y B)),
    (Rlt_dec (v2_y B) (v2_x A)), (Rlt_dec (v2_y A) (v2_x B));
    try reflexivity; exfalso; lra.
Qed.

(** Nor does the test on one axis depend on the sense of the axis. *)
Lemma separated_on_vneg (a b : Collider R) (v : Vector3 R) :
  separated_on a b (vneg v) = separated_on a b v.
Proof. rewrite !GetColliderProjectionBounds_vneg. apply disjoint_negswap. Qed.

Lemma separated_on_CrossAxis (a b : Collider R) (p q : Vector3 R) :
  separated_on b a (CrossAxis q p) = separated_on a b (CrossAxis p q).
Proof.
  rewrite separated_on_sym.
  destruct (CrossAxis_swap p q) as [E | E]; rewrite E; [reflexivity|].
  apply separated_on_vneg.
Qed.

End ExactGeometry.

(** ** Exact arithmetic: lengths *)

Section ExactLengths.
Local Open Scope R_scope.

Lemma Vector3LengthSqr_nonneg (v : Vector3 R) : 0 <= Vector3LengthSqr v.
Proof. unfold Vector3LengthSqr. cbn [fadd fmul exact]. nra. Qed.

Lemma Vector3LengthSqr_scale (v : Vector3 R) (s : R) :
  Vector3LengthSqr (Vector3Scale v s) = s * s * Vector3LengthSqr v.
Proof. unfold Vector3LengthSqr, Vector3Scale. cbn. ring. Qed.

(** [Vector3Normalize] gives a unit vector, or the zero vector back. *)
Lemma Vector3Normalize_length (w : Vector3 R) :
  Vector3LengthSqr (Vector3Normalize w) <= 1.
Proof.
  pose proof (Vector3LengthSqr_nonneg w) as Hs.
  unfold Vector3Normalize.
  change (v3_x w * v3_x w + v3_y w * v3_y w + v3_z w * v3_z w)%fl
    with (Vector3LengthSqr w).
  cbn [fsqrt fdiv fmul exact fone fzero].
  destruct (negb (sqrt (Vector3LengthSqr w) == 0)%fl) eqn:E.
  - apply negb_true_iff, exact_feq_false in E.
    assert (HL : sqrt (Vector3LengthSqr w) * sqrt (Vector3LengthSqr w)
                 = Vector3LengthSqr w) by (apply sqrt_sqrt; exact Hs).
    set (L := sqrt (Vector3LengthSqr w)) in *.
    unfold Vector3LengthSqr at 1. cbn [v3_x v3_y v3_z fadd fmul exact].
    replace (v3_x w * (1 / L) * (v3_x w * (1 / L)) + v3_y w * (1 / L) * (v3_y w * (1 / L))
             + v3_z w * (1 / L) * (v3_z w * (1 / L)))
      with ((v3_x w * v3_x w + v3_y w * v3_y w + v3_z w * v3_z w) / (L * L))
      by (field; exact E).
    change (v3_x w * v3_x w + v3_y w * v3_y w + v3_z w * v3_z w)
      with (Vector3LengthSqr w).
    rewrite HL. right. field. rewrite <- HL. nra.
  - apply negb_false_iff, exact_feq in E.
    apply sqrt_eq_0 in E; [|exact Hs]. rewrite E. lra.
Qed.

Lemma CrossAxis_length (p q : Vector3 R) : Vector3LengthSqr (CrossAxis p q) <= 1.
Proof.
  unfold CrossAxis. destruct (Vector3Equals p q).
  - unfold Vector3LengthSqr. cbn. lra.
  - apply Vector3Normalize_length.
Qed.

(** With rotation matrices in both structs, no candidate axis is longer
    than 1. *)
Lemma axis_length (a b : Collider R) (i : nat) :
  unit_axes (matRotate a) -> unit_axes (matRotate b) ->
  Vector3LengthSqr (axis a b i) <= 1.
Proof.
  intros (Ha1 & Ha2 & Ha3) (Hb1 & Hb2 & Hb3). rewrite GetCollisionVectors_eq.
  cbv zeta.
  do 6 (destruct i as [|i]; [cbn [nth]; lra|]).
  do 9 (destruct i as [|i]; [cbn [nth]; apply CrossAxis_length|]).
  destruct i; cbn [nth]; unfold Vector3LengthSqr; cbn; lra.
Qed.

Lemma Vector3Length_Zero : Vector3Length (Vector3Zero : Vector3 R) = 0.
Proof.
  unfold Vector3Length, Vector3LengthSqr, Vector3Zero. cbn.
  replace (0 * 0 + 0 * 0 + 0 * 0) with 0 by ring. apply sqrt_0.
Qed.

(** A vector no longer than 1, scaled by less than 100 in absolute value. *)
Lemma Vector3Length_scale_lt (v : Vector3 R) (s : R) :
  Vector3LengthSqr v <= 1 -> Rabs s < 100 ->
  Vector3Length (Vector3Scale v s) < 100.
Proof.
  intros Hv Hs. unfold Vector3Length. cbn [fsqrt exact].
  rewrite Vector3LengthSqr_scale.
  pose proof (Vector3LengthSqr_nonneg v) as H0.
  assert (Hss : s * s < 100 * 100).
  { apply Rabs_def2 in Hs. nra. }
  replace 100 with (sqrt (100 * 100)) at 1 by (apply sqrt_square; lra).
  apply sqrt_lt_1; nra.
Qed.
End ExactLengths.

(** ** Exact arithmetic: composing the two matrices *)

Section ExactTransform.
Local Open Scope R_scope.

Lemma MatrixIdentity_affine : affine MatrixIdentity.
Proof. repeat split. Qed.

Lemma MatrixRotate_affine (v : Vector3 R) (ang : R) : affine (MatrixRotate v ang).
Proof. repeat split. Qed.

Lemma MatrixMultiply_affine (A B : Matrix R) :
  affine A -> affine B -> affine (MatrixMultiply A B).
Proof.
  intros (A3 & A7 & A11 & A15) (B3 & B7 & B11 & B15).
  unfold affine, MatrixMultiply. cbn [m3 m7 m11 m15 fadd fmul exact].
  rewrite A3, A7, A11, A15, B3, B7, B11, B15. repeat split; ring.
Qed.

(** Transforming by [MatrixMultiply Rot T] is transforming by [Rot], then by
    [T]. *)
Lemma Vector3Transform_MatrixMultiply (v : Vector3 R) (Rot T : Matrix R) :
  affine Rot ->
  Vector3Transform v (MatrixMultiply Rot T) =
  Vector3Transform (Vector3Transform v Rot) T.
Proof.
  intros (R3 & R7 & R11 & R15).
  unfold Vector3Transform, MatrixMultiply.
  cbn [m0 m1 m2 m4 m5 m6 m8 m9 m10 m12 m13 m14 v3_x v3_y v3_z fadd fmul exact].
  rewrite R3, R7, R11, R15. f_equal; ring.
Qed.

Lemma mutate_affine (col : Collider R) (m : Mutation R) :
  affine (matRotate col) -> affine (matRotate (mutate col m)).
Proof.
  intros H. destruct m; cbn [mutate];
    unfold SetColliderRotation, AddColliderRotation, SetColliderTranslation,
      AddColliderTranslation;
    rewrite (proj1 (proj2 (Update_keeps _))); cbn [matRotate].
  - apply MatrixRotate_affine.
  - apply MatrixMultiply_affine; [exact H | apply MatrixRotate_affine].
  - exact H.
  - exact H.
Qed.

Lemma mutate_all_affine (ms : list (Mutation R)) (col : Collider R) :
  affine (matRotate col) -> affine (matRotate (mutate_all col ms)).
Proof.
  revert col. induction ms as [|m ms IH]; intros col H; [exact H|].
  apply IH, mutate_affine, H.
Qed.

Lemma CreateCollider_affine (min max : Vector3 R) :
  affine (matRotate (CreateCollider min max)).
Proof.
  unfold CreateCollider. rewrite (proj1 (proj2 (Update_keeps _))).
  apply MatrixIdentity_affine.
Qed.

Lemma consistent_rotated_then_translated (col : Collider R) :
  affine (matRotate col) -> consistent col -> rotated_then_translated col.
Proof.
  intros Ha Hc i Hi. rewrite (Hc i Hi). unfold GetColliderTransform.
  apply Vector3Transform_MatrixMultiply, Ha.
Qed.
End ExactTransform.

(** ** Exact arithmetic: the sign of the overlap *)

Section ExactOverlap.
Local Open Scope R_scope.

Lemma GetOverlap_sign (A B : Vector2 R) :
  GetOverlap A B <> 0 ->
  (v2_x A > v2_x B -> GetOverlap A B = v2_y B - v2_x A /\ 0 < GetOverlap A B) /\
  (v2_x A <= v2_x B -> GetOverlap A B = v2_x B - v2_y A /\ GetOverlap A B < 0).
Proof.
  unfold GetOverlap. cbn [fltb fsub fzero exact]. unfold Rb.
  destruct (Rlt_dec (v2_y B) (v2_x A)); [intros H; exfalso; apply H; reflexivity|].
  destruct (Rlt_dec (v2_y A) (v2_x B)); [intros H; exfalso; apply H; reflexivity|].
  destruct (Rlt_dec (v2_x B) (v2_x A)); intros H; split; intros H1;
    try (exfalso; lra); split; try reflexivity; lra.
Qed.
End ExactOverlap.

(** ** A collider against itself, and a correction that is not zero *)

Section Self.
Context {F : Type} {ops : FloatOps F}.
Hypothesis not_reversed : forall (col : Collider F) (v : Vector3 F),
  (v2_y (GetColliderProjectionBounds col v)
   < v2_x (GetColliderProjectionBounds col v))%fl = false.

Lemma TestColliderPair_same (a : Collider F) : TestColliderPair a a = true.
Proof.
  unfold TestColliderPair. rewrite TestAxes_forallb. apply forallb_forall.
  intros v _. unfold disjoint. rewrite (not_reversed a v). reflexivity.
Qed.
End Self.

Section Corrected.
Context {F : Type} {ops : FloatOps F}.
Hypothesis feqb_zero_zero : ((fzero : F) == fzero)%fl = true.

Lemma GetCollisionCorrection_nonzero (a b : Collider F) :
  GetCollisionCorrection a b <> Vector3Zero -> TestColliderPair a b = true.
Proof.
  intros H. destruct (TestColliderPair a b) eqn:E; [reflexivity|].
  exfalso. apply H. unfold TestColliderPair in E.
  apply TestAxes_false_iff in E. destruct E as (i & Hi & Hs).
  rewrite GetCollisionVectors_length in Hi.
  exact (proj2 (proj2 (GetCollisionCorrection_separated feqb_zero_zero a b i Hi Hs))).
Qed.
End Corrected.

(** ** The ends of a projection interval *)

Section Attained.
Context {F : Type} {ops : FloatOps F}.

Lemma fmin_cases (x y : F) : fmin x y = x \/ fmin x y = y.
Proof.
  unfold fmin. destruct (fisnan x); [right; reflexivity|].
  destruct (fisnan y); [left; reflexivity|].
  destruct (y < x)%fl; [right | left]; reflexivity.
Qed.

Lemma fmax_cases (x y : F) : fmax x y = x \/ fmax x y = y.
Proof.
  unfold fmax. destruct (fisnan x); [right; reflexivity|].
  destruct (fisnan y); [left; reflexivity|].
  destruct (x < y)%fl; [right | left]; reflexivity.
Qed.

Lemma fold_widen_In (l : list F) (B : Vector2 F) :
  In (v2_x (fold_left widen l B)) (v2_x B :: l) /\
  In (v2_y (fold_left widen l B)) (v2_y B :: l).
Proof.
  revert B. induction l as [|p l IH]; intros B.
  - split; left; reflexivity.
  - cbn [fold_left]. destruct (IH (widen B p)) as [Hx Hy]. split.
    + destruct Hx as [Hx | Hx]; [|right; right; exact Hx].
      rewrite <- Hx. unfold widen. cbn [v2_x].
      destruct (fmin_cases (v2_x B) p) as [-> | ->]; [left | right; left]; reflexivity.
    + destruct Hy as [Hy | Hy]; [|right; right; exact Hy].
      rewrite <- Hy. unfold widen. cbn [v2_y].
      destruct (fmax_cases (v2_y B) p) as [-> | ->]; [left | right; left]; reflexivity.
Qed.

(** The projections of the eight vertices, the first included. *)
Lemma In_projections (col : Collider F) (vec : Vector3 F) (q : F) :
  In q (Vector3DotProduct (vget (vertGlobal col) 0) vec :: projections col vec) <->
  exists i, i < COLLIDER_VERTEX_COUNT /\
    q = Vector3DotProduct (vget (vertGlobal col) i) vec.
Proof.
  unfold projections. split.
  - intros [H | H].
    + exists 0. split; [apply Nat.lt_0_succ | symmetry; exact H].
    + apply in_map_iff in H. destruct H as (i & Hq & Hi). apply in_seq in Hi.
      exists i. split; [unfold COLLIDER_VERTEX_COUNT in *; lia | symmetry; exact Hq].
  - intros (i & Hi & ->). destruct i as [|i]; [left; reflexivity|].
    right. apply in_map_iff. exists (S i). split; [reflexivity|].
    apply in_seq. unfold COLLIDER_VERTEX_COUNT in *. lia.
Qed.

Lemma bounds_attained (col : Collider F) (vec : Vector3 F) :
  (exists i, i < COLLIDER_VERTEX_COUNT /\
     v2_x (GetColliderProjectionBounds col vec) =
     Vector3DotProduct (vget (vertGlobal col) i) vec) /\
  (exists i, i < COLLIDER_VERTEX_COUNT /\
     v2_y (GetColliderProjectionBounds col vec) =
     Vector3DotProduct (vget (vertGlobal col) i) vec).
Proof.
  rewrite GetColliderProjectionBounds_fold. cbv zeta.
  destruct (fold_widen_In (projections col vec)
              (mkVector2 (Vector3DotProduct (vget (vertGlobal col) 0) vec)
                         (Vector3DotProduct (vget (vertGlobal col) 0) vec))) as [Hx Hy].
  cbn [v2_x v2_y] in Hx, Hy. split; apply In_projections; assumption.
Qed.
End Attained.

(** ** The setters *)

Section Setters.
Context {F : Type} {ops : FloatOps F} {trig : TrigOps F}.

(** The struct that [UpdateColliderGlobalVerts] returns depends on the
    local vertices and the two matrices only. *)
Lemma Update_ignores_vertGlobal (L G G' : Verts F) (Rot T : Matrix F) :
  UpdateColliderGlobalVerts (mkCollider L G Rot T) =
  UpdateColliderGlobalVerts (mkCollider L G' Rot T).
Proof. rewrite !UpdateColliderGlobalVerts_eq. reflexivity. Qed.

Lemma set_rotation_translation_commute (col : Collider F) (axis pos : Vector3 F) (ang : F) :
  SetColliderRotation (SetColliderTranslation col pos) axis ang =
  SetColliderTranslation (SetColliderRotation col axis ang) pos.
Proof.
  unfold SetColliderRotation, SetColliderTranslation.
  rewrite !UpdateColliderGlobalVerts_eq. reflexivity.
Qed.

Lemma add_rotation_translation_commute (col : Collider F) (axis pos : Vector3 F) (ang : F) :
  AddColliderRotation (AddColliderTranslation col pos) axis ang =
  AddColliderTranslation (AddColliderRotation col axis ang) pos.
Proof.
  unfold AddColliderRotation, AddColliderTranslation.
  rewrite !UpdateColliderGlobalVerts_eq. reflexivity.
Qed.

Lemma set_add_commute (col : Collider F) (axis pos : Vector3 F) (ang : F) :
  SetColliderRotation (AddColliderTranslation col pos) axis ang =
  AddColliderTranslation (SetColliderRotation col axis ang) pos /\
  AddColliderRotation (SetColliderTranslation col pos) axis ang =
  SetColliderTranslation (AddColliderRotation col axis ang) pos.
Proof.
  unfold SetColliderRotation, AddColliderRotation, SetColliderTranslation,
    AddColliderTranslation.
  rewrite !UpdateColliderGlobalVerts_eq. split; reflexivity.
Qed.

Lemma set_translation_overwrites (col : Collider F) (p pos : Vector3 F) :
  SetColliderTranslation (SetColliderTranslation col p) pos = SetColliderTranslation col pos /\
  SetColliderTranslation (AddColliderTranslation col p) pos = SetColliderTranslation col pos.
Proof.
  unfold SetColliderTranslation, AddColliderTranslation.
  rewrite !UpdateColliderGlobalVerts_eq. split; reflexivity.
Qed.

Lemma set_rotation_overwrites (col : Collider F) (ax axis : Vector3 F) (g ang : F) :
  SetColliderRotation (SetColliderRotation col ax g) axis ang = SetColliderRotation col axis ang /\
  SetColliderRotation (AddColliderRotation col ax g) axis ang = SetColliderRotation col axis ang.
Proof.
  unfold SetColliderRotation, AddColliderRotation.
  rewrite !UpdateColliderGlobalVerts_eq. split; reflexivity.
Qed.
End Setters.

(** ** IEEE floats: the interval of a projection *)

Lemma SFltb_leb (x y : spec_float) : SFltb x y = true -> SFleb x y = true.
Proof. intros H. rewrite SFleb_ltb_eqb, H. reflexivity. Qed.

Lemma SFleb_refl (x : spec_float) : SFeqb x x = true -> SFleb x x = true.
Proof. intros H. rewrite SFleb_ltb_eqb, H. apply orb_true_r. Qed.

Lemma SFltb_asym (x y : spec_float) : SFltb x y = true -> SFltb y x = false.
Proof.
  intros H. destruct (SFltb y x) eqn:E; [|reflexivity].
  pose proof (SFltb_trans _ _ _ H E) as C. rewrite SFltb_irrefl in C. discriminate.
Qed.

(** A value inside the interval stays inside when the interval is widened. *)
Lemma b32_widen_encloses (B : Vector2 spec_float) (p q : spec_float) :
  encloses B q = true -> encloses (widen B p) q = true.
Proof.
  destruct B as [lo hi]. unfold encloses, widen, fmin, fmax, fisnan.
  cbn [v2_x v2_y feqb fltb fleb binary32].
  intros H. apply andb_true_iff in H. destruct H as [Hlo Hhi].
  destruct (SFleb_not_nan _ _ Hlo) as [Nlo Nq].
  destruct (SFleb_not_nan _ _ Hhi) as [_ Nhi].
  rewrite Nlo, Nhi. cbn [negb].
  destruct (SFeqb p p); cbn [negb]; [|rewrite Hlo, Hhi; reflexivity].
  apply andb_true_iff. split.
  - destruct (SFltb p lo) eqn:E; [|exact Hlo].
    apply SFltb_leb. exact (SFltb_leb_trans _ _ _ E Hlo).
  - destruct (SFltb hi p) eqn:E; [|exact Hhi].
    apply SFltb_leb. exact (SFleb_ltb_trans _ _ _ Hhi E).
Qed.

(** The value that widens the interval is inside it afterwards. *)
Lemma b32_widen_encloses_new (B : Vector2 spec_float) (p : spec_float) :
  SFeqb p p = true -> encloses (widen B p) p = true.
Proof.
  destruct B as [lo hi]. unfold encloses, widen, fmin, fmax, fisnan.
  cbn [v2_x v2_y feqb fltb fleb binary32].
  intros Np. rewrite Np. cbn [negb]. apply andb_true_iff. split.
  - destruct (SFeqb lo lo) eqn:Nlo; cbn [negb]; [|apply SFleb_refl, Np].
    destruct (SFltb p lo) eqn:E; [apply SFleb_refl, Np|].
    apply SFleb_total; assumption.
  - destruct (SFeqb hi hi) eqn:Nhi; cbn [negb]; [|apply SFleb_refl, Np].
    destruct (SFltb hi p) eqn:E; [apply SFleb_refl, Np|].
    apply SFleb_total; assumption.
Qed.

Lemma b32_fold_widen_encloses (l : list spec_float) (B : Vector2 spec_float)
  (q : spec_float) :
  encloses B q = true -> encloses (fold_left widen l B) q = true.
Proof.
  revert B. induction l as [|p l IH]; intros B H; [exact H|].
  cbn [fold_left]. apply IH, b32_widen_encloses, H.
Qed.

Lemma b32_fold_widen_encloses_In (l : list spec_float) (B : Vector2 spec_float)
  (q : spec_float) :
  SFeqb q q = true -> In q l -> encloses (fold_left widen l B) q = true.
Proof.
  intros Nq. revert B. induction l as [|p l IH]; intros B H; [destruct H|].
  cbn [fold_left]. destruct H as [-> | H].
  - apply b32_fold_widen_encloses, b32_widen_encloses_new, Nq.
  - apply IH, H.
Qed.

Lemma b32_bounds_enclose (col : Collider spec_float) (vec : Vector3 spec_float) (i : nat) :
  i < COLLIDER_VERTEX_COUNT ->
  SFeqb (Vector3DotProduct (vget (vertGlobal col) i) vec)
        (Vector3DotProduct (vget (vertGlobal col) i) vec) = true ->
  encloses (GetColliderProjectionBounds col vec)
           (Vector3DotProduct (vget (vertGlobal col) i) vec) = true.
Proof.
  intros Hi Nq.
  assert (HIn : In (Vector3DotProduct (vget (vertGlobal col) i) vec)
                  (Vector3DotProduct (vget (vertGlobal col) 0) vec :: projections col vec)).
  { apply In_projections. exists i. split; [exact Hi | reflexivity]. }
  rewrite GetColliderProjectionBounds_fold. cbv zeta.
  destruct HIn as [E | HIn].
  - apply b32_fold_widen_encloses. rewrite <- E in Nq |- *.
    unfold encloses. cbn [v2_x v2_y fleb binary32].
    rewrite (SFleb_refl _ Nq). reflexivity.
  - apply b32_fold_widen_encloses_In; assumption.
Qed.

(** ** A value in both intervals *)

(** An interval that encloses a value of another interval is not disjoint
    from it. *)
Lemma b32_encloses_not_disjoint (A B : Vector2 spec_float) (p : spec_float) :
  encloses A p = true -> encloses B p = true -> disjoint A B = false.
Proof.
  unfold encloses, disjoint. cbn [fleb fltb binary32].
  intros HA HB. apply andb_true_iff in HA, HB.
  destruct HA as [HA1 HA2], HB as [HB1 HB2].
  apply orb_false_iff. split.
  - destruct (SFltb (v2_y B) (v2_x A)) eqn:E; [|reflexivity].
    pose proof (SFleb_ltb_trans _ _ _ HB2 E) as H1.
    pose proof (SFltb_leb_trans _ _ _ H1 HA1) as H2.
    rewrite SFltb_irrefl in H2. discriminate.
  - destruct (SFltb (v2_y A) (v2_x B)) eqn:E; [|reflexivity].
    pose proof (SFleb_ltb_trans _ _ _ HA2 E) as H1.
    pose proof (SFltb_leb_trans _ _ _ H1 HB1) as H2.
    rewrite SFltb_irrefl in H2. discriminate.
Qed.

Lemma b32_bounds_enclose_finite
  (col : Collider spec_float) (vec : Vector3 spec_float) (i : nat) :
  i < COLLIDER_VERTEX_COUNT ->
  fisnan (Vector3DotProduct (vget (vertGlobal col) i) vec) = false ->
  encloses (GetColliderProjectionBounds col vec)
           (Vector3DotProduct (vget (vertGlobal col) i) vec) = true.
Proof.
  intros Hi Hn. apply b32_bounds_enclose; [exact Hi|].
  apply negb_false_iff. exact Hn.
Qed.

Section Shared.
Context {F : Type} {ops : FloatOps F}.
Hypothesis enclosed : forall (col : Collider F) (vec : Vector3 F) (i : nat),
  i < COLLIDER_VERTEX_COUNT ->
  fisnan (Vector3DotProduct (vget (vertGlobal col) i) vec) = false ->
  encloses (GetColliderProjectionBounds col vec)
           (Vector3DotProduct (vget (vertGlobal col) i) vec) = true.
Hypothesis not_disjoint : forall (A B : Vector2 F) (p : F),
  encloses A p = true -> encloses B p = true -> disjoint A B = false.

(** No axis separates two colliders at a world vertex they share. *)
Lemma shared_vertex_not_separated (a b : Collider F) (vec : Vector3 F) (i j : nat) :
  i < COLLIDER_VERTEX_COUNT -> j < COLLIDER_VERTEX_COUNT ->
  vget (vertGlobal a) i = vget (vertGlobal b) j ->
  fisnan (Vector3DotProduct (vget (vertGlobal a) i) vec) = false ->
  separated_on a b vec = false.
Proof.
  intros Hi Hj Hv Hn.
  apply (not_disjoint _ _ (Vector3DotProduct (vget (vertGlobal a) i) vec)).
  - exact (enclosed a vec i Hi Hn).
  - rewrite Hv in Hn |- *. exact (enclosed b vec j Hj Hn).
Qed.

Lemma shared_vertex_overlap (a b : Collider F) (i j : nat) :
  i < COLLIDER_VERTEX_COUNT -> j < COLLIDER_VERTEX_COUNT ->
  vget (vertGlobal a) i = vget (vertGlobal b) j ->
  (forall k, k < 15 ->
     fisnan (Vector3DotProduct (vget (vertGlobal a) i) (axis a b k)) = false) ->
  TestColliderPair a b = true.
Proof.
  intros Hi Hj Hv Hn. destruct (TestColliderPair a b) eqn:E; [reflexivity|].
  unfold TestColliderPair in E. apply TestAxes_false_iff in E.
  destruct E as (k & Hk & Hs). rewrite GetCollisionVectors_length in Hk.
  rewrite (shared_vertex_not_separated a b _ i j Hi Hj Hv (Hn k Hk)) in Hs.
  discriminate.
Qed.
End Shared.

(** ** IEEE floats: the overlap of two intervals exchanged *)

Lemma b32_GetOverlap_swap (A B : Vector2 spec_float) :
  SFltb (v2_x A) (v2_x B) = true \/ SFltb (v2_x B) (v2_x A) = true ->
  mirror (GetOverlap A B) (GetOverlap B A).
Proof.
  destruct A as [alo ahi], B as [blo bhi]. unfold GetOverlap.
  cbn [v2_x v2_y fltb fsub fzero binary32]. intros H.
  destruct (SFltb bhi alo), (SFltb ahi blo);
    try (right; split; reflexivity).
  destruct H as [H | H]; rewrite H, (SFltb_asym _ _ H); apply SFsub_swap.
Qed.

(** ** A NaN in the position *)

Section NaN.
Context {F : Type} {ops : FloatOps F}.
Variable nan : F.
Hypothesis fmul_nan_l : forall x : F, (nan * x)%fl = nan.
Hypothesis fmul_nan_r : forall x : F, (x * nan)%fl = nan.
Hypothesis fadd_nan_l : forall x : F, (nan + x)%fl = nan.
Hypothesis fadd_nan_r : forall x : F, (x + nan)%fl = nan.
Hypothesis fsub_nan_l : forall x : F, (nan - x)%fl = nan.
Hypothesis fsub_nan_r : forall x : F, (x - nan)%fl = nan.
Hypothesis flt_nan_l : forall x : F, (nan < x)%fl = false.
Hypothesis flt_nan_r : forall x : F, (x < nan)%fl = false.
Hypothesis feq_nan : forall x : F, (nan == x)%fl = false.
Hypothesis fabs_nan : fabs nan = nan.
Hypothesis fmul_zero_hundred : ((fzero : F) * fhundred)%fl = fzero.

Lemma MatrixTranslate_nan (pos : Vector3 F) :
  has_nan nan pos -> nan_offset nan (MatrixTranslate (v3_x pos) (v3_y pos) (v3_z pos)).
Proof. intros H. exact H. Qed.

Lemma MatrixMultiply_nan (L M : Matrix F) :
  nan_offset nan M -> nan_offset nan (MatrixMultiply L M).
Proof.
  unfold nan_offset, MatrixMultiply. cbn [m12 m13 m14].
  intros [H | [H | H]]; rewrite H, fmul_nan_r, fadd_nan_r; auto.
Qed.

Lemma Vector3Transform_nan (v : Vector3 F) (M : Matrix F) :
  nan_offset nan M -> has_nan nan (Vector3Transform v M).
Proof.
  unfold nan_offset, has_nan, Vector3Transform. cbn [v3_x v3_y v3_z].
  intros [H | [H | H]]; rewrite H, fadd_nan_r; auto.
Qed.

Lemma Update_nan (col : Collider F) (i : nat) :
  nan_offset nan (matTranslate col) ->
  has_nan nan (vget (vertGlobal (UpdateColliderGlobalVerts col)) i).
Proof.
  intros H. rewrite UpdateColliderGlobalVerts_eq. cbv zeta. cbn [vertGlobal].
  do 7 (destruct i as [|i];
        [cbn [vget vert0 vert1 vert2 vert3 vert4 vert5 vert6 vert7];
         apply Vector3Transform_nan, MatrixMultiply_nan, H|]).
  cbn [vget vert7]. apply Vector3Transform_nan, MatrixMultiply_nan, H.
Qed.

Lemma Vector3DotProduct_nan (p v : Vector3 F) :
  has_nan nan p -> Vector3DotProduct p v = nan.
Proof.
  unfold Vector3DotProduct. intros [H | [H | H]]; rewrite H.
  - rewrite fmul_nan_l, !fadd_nan_l. reflexivity.
  - rewrite fmul_nan_l, fadd_nan_r, fadd_nan_l. reflexivity.
  - rewrite fmul_nan_l, fadd_nan_r. reflexivity.
Qed.

Lemma fold_widen_nan (l : list F) :
  (forall q, In q l -> q = nan) ->
  fold_left widen l (mkVector2 nan nan) = mkVector2 nan nan.
Proof.
  induction l as [|p l IH]; intros H; [reflexivity|].
  cbn [fold_left]. rewrite (H p (or_introl eq_refl)).
  unfold widen at 2. unfold fmin, fmax, fisnan. cbn [v2_x v2_y].
  rewrite feq_nan. cbn [negb]. apply IH. intros q Hq. apply H. right. exact Hq.
Qed.

Variable a : Collider F.
Hypothesis a_nan : forall i, has_nan nan (vget (vertGlobal a) i).

Lemma GetColliderProjectionBounds_nan (v : Vector3 F) :
  GetColliderProjectionBounds a v = mkVector2 nan nan.
Proof.
  rewrite GetColliderProjectionBounds_fold. cbv zeta.
  rewrite (Vector3DotProduct_nan _ v (a_nan 0)). apply fold_widen_nan.
  intros q Hq. unfold projections in Hq. apply in_map_iff in Hq.
  destruct Hq as (i & <- & _). apply Vector3DotProduct_nan, a_nan.
Qed.

Lemma TestColliderPair_nan (b : Collider F) :
  TestColliderPair a b = true /\ TestColliderPair b a = true.
Proof.
  unfold TestColliderPair. rewrite !TestAxes_forallb. split.
  - apply forallb_forall. intros v _. rewrite GetColliderProjectionBounds_nan.
    unfold disjoint. cbn [v2_x v2_y]. rewrite flt_nan_l, flt_nan_r. reflexivity.
  - apply forallb_forall. intros v _. rewrite GetColliderProjectionBounds_nan.
    unfold disjoint. cbn [v2_x v2_y]. rewrite flt_nan_l, flt_nan_r. reflexivity.
Qed.

Lemma GetOverlap_nan_l (B : Vector2 F) : GetOverlap (mkVector2 nan nan) B = nan.
Proof.
  unfold GetOverlap. cbn [v2_x v2_y].
  rewrite !flt_nan_l, !flt_nan_r. apply fsub_nan_r.
Qed.

Lemma GetOverlap_nan_r (B : Vector2 F) : GetOverlap B (mkVector2 nan nan) = nan.
Proof.
  unfold GetOverlap. cbn [v2_x v2_y].
  rewrite !flt_nan_l, !flt_nan_r. apply fsub_nan_l.
Qed.

Lemma CorrectionLoop_nan (x y : Collider F) (l : list (Vector3 F)) (m : F)
  (d : Vector3 F) :
  (forall v, overlap_on x y v = nan) ->
  CorrectionLoop x y l m d = Vector3Scale d m.
Proof.
  intros H. revert m d. induction l as [|v l IH]; intros m d; [reflexivity|].
  cbn [CorrectionLoop]. rewrite (H v), feq_nan, fabs_nan, flt_nan_l. apply IH.
Qed.

Lemma GetCollisionCorrection_nan (b : Collider F) :
  GetCollisionCorrection a b = Vector3Zero /\ GetCollisionCorrection b a = Vector3Zero.
Proof.
  unfold GetCollisionCorrection. split.
  - rewrite CorrectionLoop_nan.
    + unfold Vector3Scale, Vector3Zero. cbn [v3_x v3_y v3_z].
      rewrite fmul_zero_hundred. reflexivity.
    + intros v. rewrite GetColliderProjectionBounds_nan. apply GetOverlap_nan_l.
  - rewrite CorrectionLoop_nan.
    + unfold Vector3Scale, Vector3Zero. cbn [v3_x v3_y v3_z].
      rewrite fmul_zero_hundred. reflexivity.
    + intros v. rewrite GetColliderProjectionBounds_nan. apply GetOverlap_nan_r.
Qed.
End NaN.

Lemma SFmul_nan_r (prec emax : Z) (x : spec_float) : SFmul prec emax x S754_nan = S754_nan.
Proof. destruct x; reflexivity. Qed.

Lemma SFadd_nan_r (prec emax : Z) (x : spec_float) : SFadd prec emax x S754_nan = S754_nan.
Proof. destruct x; reflexivity. Qed.

Lemma SFsub_nan_r (prec emax : Z) (x : spec_float) : SFsub prec emax x S754_nan = S754_nan.
Proof. destruct x; reflexivity. Qed.

Lemma SFltb_nan_r (x : spec_float) : SFltb x S754_nan = false.
Proof. destruct x; reflexivity. Qed.

(** A position with a NaN coordinate leaves a NaN in every world vertex. *)
Lemma b32_translation_nan (col a : Collider spec_float) (pos : Vector3 spec_float) (i : nat) :
  has_nan S754_nan pos ->
  a = SetColliderTranslation col pos \/ a = AddColliderTranslation col pos ->
  has_nan S754_nan (vget (vertGlobal a) i).
Proof.
  intros Hp [-> | ->]; unfold SetColliderTranslation, AddColliderTranslation;
    apply (@Update_nan spec_float binary32 S754_nan (SFmul_nan_r b32_prec b32_emax)
             (SFadd_nan_r b32_prec b32_emax)); cbn [matTranslate].
  - exact Hp.
  - apply (@MatrixMultiply_nan spec_float binary32 S754_nan
             (SFmul_nan_r b32_prec b32_emax) (SFadd_nan_r b32_prec b32_emax)).
    exact Hp.
Qed.

Lemma b32_nan_collides (a b : Collider spec_float) :
  (forall i, has_nan S754_nan (vget (vertGlobal a) i)) ->
  TestColliderPair a b = true /\ TestColliderPair b a = true /\
  GetCollisionCorrection a b = Vector3Zero /\ GetCollisionCorrection b a = Vector3Zero.
Proof.
  intros Hn.
  destruct (@TestColliderPair_nan spec_float binary32 S754_nan
              (fun x => eq_refl) (fun x => eq_refl) (SFadd_nan_r b32_prec b32_emax)
              (fun x => eq_refl) SFltb_nan_r (fun x => eq_refl) a Hn b) as [H1 H2].
  destruct (@GetCollisionCorrection_nan spec_float binary32 S754_nan
              (fun x => eq_refl) (fun x => eq_refl) (SFadd_nan_r b32_prec b32_emax)
              (fun x => eq_refl) (SFsub_nan_r b32_prec b32_emax)
              (fun x => eq_refl) SFltb_nan_r (fun x => eq_refl) eq_refl eq_refl a Hn b)
    as [H3 H4].
  repeat split; assumption.
Qed.

(** ** Exact arithmetic: moving a collider *)

Section ExactMoves.
Local Open Scope R_scope.

Lemma mkMatrix_eq (a0 a4 a8 a12 a1 a5 a9 a13 a2 a6 a10 a14 a3 a7 a11 a15
                   b0 b4 b8 b12 b1 b5 b9 b13 b2 b6 b10 b14 b3 b7 b11 b15 : R) :
  a0 = b0 -> a4 = b4 -> a8 = b8 -> a12 = b12 ->
  a1 = b1 -> a5 = b5 -> a9 = b9 -> a13 = b13 ->
  a2 = b2 -> a6 = b6 -> a10 = b10 -> a14 = b14 ->
  a3 = b3 -> a7 = b7 -> a11 = b11 -> a15 = b15 ->
  mkMatrix a0 a4 a8 a12 a1 a5 a9 a13 a2 a6 a10 a14 a3 a7 a11 a15 =
  mkMatrix b0 b4 b8 b12 b1 b5 b9 b13 b2 b6 b10 b14 b3 b7 b11 b15.
Proof. intros. subst. reflexivity. Qed.

Lemma MatrixMultiply_Identity_r (A : Matrix R) : MatrixMultiply A MatrixIdentity = A.
Proof.
  destruct A as [a0 a4 a8 a12 a1 a5 a9 a13 a2 a6 a10 a14 a3 a7 a11 a15].
  unfold MatrixMultiply, MatrixIdentity.
  cbn [m0 m1 m2 m3 m4 m5 m6 m7 m8 m9 m10 m11 m12 m13 m14 m15 fadd fmul fzero fone exact].
  apply mkMatrix_eq; ring.
Qed.

Lemma MatrixTranslate_zero : MatrixTranslate 0 0 0 = (MatrixIdentity : Matrix R).
Proof. reflexivity. Qed.

Lemma MatrixTranslate_add (p q : Vector3 R) :
  MatrixMultiply (MatrixTranslate (v3_x p) (v3_y p) (v3_z p))
                 (MatrixTranslate (v3_x q) (v3_y q) (v3_z q)) =
  MatrixTranslate (v3_x p + v3_x q) (v3_y p + v3_y q) (v3_z p + v3_z q).
Proof.
  unfold MatrixMultiply, MatrixTranslate.
  cbn [m0 m1 m2 m3 m4 m5 m6 m7 m8 m9 m10 m11 m12 m13 m14 m15 fadd fmul fzero fone exact].
  apply mkMatrix_eq; ring.
Qed.

Lemma MatrixTranslate_affine (x y z : R) : affine (MatrixTranslate x y z).
Proof. repeat split. Qed.

Lemma Vector3Transform_MatrixTranslate (v t : Vector3 R) :
  Vector3Transform v (MatrixTranslate (v3_x t) (v3_y t) (v3_z t)) = Vector3Add v t.
Proof.
  unfold Vector3Transform, MatrixTranslate, Vector3Add.
  cbn [m0 m1 m2 m4 m5 m6 m8 m9 m10 m12 m13 m14 fadd fmul fzero fone exact v3_x v3_y v3_z].
  f_equal; ring.
Qed.

(** A struct whose world vertices agree with its matrices is left as it is
    by [UpdateColliderGlobalVerts]. *)
Lemma Update_fixed (col : Collider R) :
  consistent col -> UpdateColliderGlobalVerts col = col.
Proof.
  intros H. rewrite UpdateColliderGlobalVerts_eq. cbv zeta.
  destruct col as [L G Rot T]. cbn [vertLocal matRotate matTranslate].
  f_equal. destruct G as [g0 g1 g2 g3 g4 g5 g6 g7].
  pose proof (H 0%nat ltac:(unfold COLLIDER_VERTEX_COUNT; lia)) as H0.
  pose proof (H 1%nat ltac:(unfold COLLIDER_VERTEX_COUNT; lia)) as H1.
  pose proof (H 2%nat ltac:(unfold COLLIDER_VERTEX_COUNT; lia)) as H2.
  pose proof (H 3%nat ltac:(unfold COLLIDER_VERTEX_COUNT; lia)) as H3.
  pose proof (H 4%nat ltac:(unfold COLLIDER_VERTEX_COUNT; lia)) as H4.
  pose proof (H 5%nat ltac:(unfold COLLIDER_VERTEX_COUNT; lia)) as H5.
  pose proof (H 6%nat ltac:(unfold COLLIDER_VERTEX_COUNT; lia)) as H6.
  pose proof (H 7%nat ltac:(unfold COLLIDER_VERTEX_COUNT; lia)) as H7.
  unfold GetColliderTransform in *.
  cbn [vget vertGlobal vertLocal matRotate matTranslate
       vert0 vert1 vert2 vert3 vert4 vert5 vert6 vert7] in *.
  rewrite <- H0, <- H1, <- H2, <- H3, <- H4, <- H5, <- H6, <- H7.
  reflexivity.
Qed.

Lemma mutate_well_formed (col : Collider R) (m : Mutation R) :
  well_formed col -> well_formed (mutate col m).
Proof.
  intros (Hc & Hr & Ht). split; [apply mutate_consistent|].
  split; [apply mutate_affine, Hr|].
  destruct m; cbn [mutate];
    unfold SetColliderRotation, AddColliderRotation, SetColliderTranslation,
      AddColliderTranslation;
    rewrite (proj2 (proj2 (Update_keeps _))); cbn [matTranslate].
  - exact Ht.
  - exact Ht.
  - apply MatrixTranslate_affine.
  - apply MatrixMultiply_affine; [exact Ht | apply MatrixTranslate_affine].
Qed.

Lemma mutate_all_well_formed (ms : list (Mutation R)) (col : Collider R) :
  well_formed col -> well_formed (mutate_all col ms).
Proof.
  revert col. induction ms as [|m ms IH]; intros col H; [exact H|].
  apply IH, mutate_well_formed, H.
Qed.

Lemma CreateCollider_well_formed (min max : Vector3 R) :
  well_formed (CreateCollider min max).
Proof.
  split; [apply CreateCollider_consistent|]. split; [apply CreateCollider_affine|].
  unfold CreateCollider. rewrite (proj2 (proj2 (Update_keeps _))).
  apply MatrixIdentity_affine.
Qed.

(** Every collider made by [CreateCollider] and moved by the four mutators. *)
Lemma built_well_formed (min max : Vector3 R) (ms : list (Mutation R)) :
  well_formed (mutate_all (CreateCollider min max) ms).
Proof. apply mutate_all_well_formed, CreateCollider_well_formed. Qed.

(** [AddColliderTranslation] moves each world vertex by [pos]. *)
Lemma AddColliderTranslation_vertGlobal (col : Collider R) (t : Vector3 R) (i : nat) :
  well_formed col -> (i < COLLIDER_VERTEX_COUNT)%nat ->
  vget (vertGlobal (AddColliderTranslation col t)) i =
  Vector3Add (vget (vertGlobal col) i) t.
Proof.
  intros (Hc & Hr & Ht) Hi.
  pose proof (consistent_rotated_then_translated col Hr Hc i Hi) as Hold.
  rewrite Hold. unfold AddColliderTranslation. cbv zeta.
  rewrite (@Update_consistent _ _ _ i Hi). unfold GetColliderTransform.
  rewrite (proj1 (Update_keeps _)), (proj1 (proj2 (Update_keeps _))),
    (proj2 (proj2 (Update_keeps _))).
  cbn [vertLocal matRotate matTranslate].
  rewrite (Vector3Transform_MatrixMultiply _ _ _ Hr).
  rewrite (Vector3Transform_MatrixMultiply _ _ _ Ht).
  apply Vector3Transform_MatrixTranslate.
Qed.

Lemma Vector3DotProduct_Add (w t v : Vector3 R) :
  Vector3DotProduct (Vector3Add w t) v = Vector3DotProduct w v + Vector3DotProduct t v.
Proof. unfold Vector3DotProduct, Vector3Add. cbn. ring. Qed.

Lemma widen_shift (B : Vector2 R) (p c : R) :
  widen (shift B c) (p + c) = shift (widen B p) c.
Proof.
  unfold widen, shift. cbn [v2_x v2_y fadd exact]. rewrite !exact_fmin, !exact_fmax.
  f_equal.
  - unfold Rmin. destruct (Rle_dec (v2_x B + c) (p + c)), (Rle_dec (v2_x B) p); lra.
  - unfold Rmax. destruct (Rle_dec (v2_y B + c) (p + c)), (Rle_dec (v2_y B) p); lra.
Qed.

Lemma fold_widen_shift (l : list R) (B : Vector2 R) (c : R) :
  fold_left widen (map (fun p => p + c) l) (shift B c) = shift (fold_left widen l B) c.
Proof.
  revert B. induction l as [|p l IH]; intros B; [reflexivity|].
  cbn [map fold_left]. rewrite widen_shift. apply IH.
Qed.

(** The interval of the moved collider is the interval moved. *)
Lemma GetColliderProjectionBounds_moved (col : Collider R) (t v : Vector3 R) :
  well_formed col ->
  GetColliderProjectionBounds (AddColliderTranslation col t) v =
  shift (GetColliderProjectionBounds col v) (Vector3DotProduct t v).
Proof.
  intros H. rewrite !GetColliderProjectionBounds_fold. cbv zeta.
  rewrite (AddColliderTranslation_vertGlobal col t 0%nat H) by (apply Nat.lt_0_succ).
  rewrite Vector3DotProduct_Add.
  assert (Hp : projections (AddColliderTranslation col t) v =
               map (fun p => p + Vector3DotProduct t v) (projections col v)).
  { unfold projections. rewrite map_map. apply map_ext_in. intros i Hi.
    apply in_seq in Hi.
    rewrite (AddColliderTranslation_vertGlobal col t i H)
      by (unfold COLLIDER_VERTEX_COUNT in *; lia).
    apply Vector3DotProduct_Add. }
  rewrite Hp.
  apply (fold_widen_shift (projections col v) (mkVector2 _ _)).
Qed.

End ExactMoves.

(** ** Exact arithmetic: a translation by the zero vector *)

Section ExactResolve.
Local Open Scope R_scope.

Lemma AddColliderTranslation_Zero (col : Collider R) :
  well_formed col -> AddColliderTranslation col Vector3Zero = col.
Proof.
  intros (Hc & _ & _). unfold AddColliderTranslation, Vector3Zero. cbv zeta.
  cbn [v3_x v3_y v3_z fzero exact]. rewrite MatrixTranslate_zero, MatrixMultiply_Identity_r.
  destruct col as [L G Rot T]. cbn [vertLocal vertGlobal matRotate matTranslate].
  exact (Update_fixed _ Hc).
Qed.
End ExactResolve.

(** ** Exact arithmetic: the rotation matrix *)

Section ExactRotations.
Local Open Scope R_scope.

(** A turn by the angle 0 is the identity, about any axis. *)
Lemma MatrixRotate_0 (axis : Vector3 R) : MatrixRotate axis 0 = MatrixIdentity.
Proof.
  unfold MatrixRotate, MatrixIdentity.
  cbn [fadd fsub fmul fone fzero fsin fcos exact exact_trig].
  rewrite sin_0, cos_0. apply mkMatrix_eq; ring.
Qed.

(** About the zero vector there is no turn: every length is multiplied by
    the cosine of the angle. *)
Lemma MatrixRotate_Zero (ang : R) :
  MatrixRotate Vector3Zero ang =
  mkMatrix (cos ang) 0 0 0
           0 (cos ang) 0 0
           0 0 (cos ang) 0
           0 0 0 1.
Proof.
  unfold MatrixRotate, Vector3Zero.
  cbn [v3_x v3_y v3_z fadd fsub fmul fone fzero fsin fcos exact exact_trig].
  assert (E : ((0 * 0 + 0 * 0 + 0 * 0 : R) == 0)%fl = true) by (apply exact_feq; ring).
  rewrite E, andb_false_r. apply mkMatrix_eq; ring.
Qed.

Lemma Vector3Transform_Identity (v : Vector3 R) :
  Vector3Transform v (MatrixMultiply MatrixIdentity MatrixIdentity) = v.
Proof.
  destruct v as [x y z]. unfold Vector3Transform, MatrixMultiply, MatrixIdentity.
  cbn [m0 m1 m2 m3 m4 m5 m6 m7 m8 m9 m10 m11 m12 m13 m14 m15 v3_x v3_y v3_z
       fadd fmul fone fzero exact].
  f_equal; ring.
Qed.

Lemma CreateCollider_vertGlobal (min max : Vector3 R) :
  vertGlobal (CreateCollider min max) = vertLocal (CreateCollider min max).
Proof.
  unfold CreateCollider. rewrite UpdateColliderGlobalVerts_eq. cbv zeta.
  cbn [vertLocal vertGlobal matRotate matTranslate
       vert0 vert1 vert2 vert3 vert4 vert5 vert6 vert7].
  rewrite !Vector3Transform_Identity. reflexivity.
Qed.
End ExactRotations.

(** ** Exact arithmetic: the calls of example.c *)

Section ExactExample.
Local Open Scope R_scope.

Lemma ColliderPosition_Set (col : Collider R) (p : Vector3 R) :
  ColliderPosition (SetColliderTranslation col p) = p.
Proof.
  unfold ColliderPosition, SetColliderTranslation.
  rewrite (proj2 (proj2 (Update_keeps _))). cbn [matTranslate].
  destruct p as [x y z]. unfold Vector3Transform, MatrixTranslate, Vector3Zero.
  cbn [m0 m1 m2 m4 m5 m6 m8 m9 m10 m12 m13 m14 v3_x v3_y v3_z fadd fmul fone fzero exact].
  f_equal; ring.
Qed.

Lemma ColliderPosition_Add (col : Collider R) (t : Vector3 R) :
  affine (matTranslate col) ->
  ColliderPosition (AddColliderTranslation col t) = Vector3Add (ColliderPosition col) t.
Proof.
  intros (_ & _ & _ & H15).
  unfold ColliderPosition, AddColliderTranslation. cbv zeta.
  rewrite (proj2 (proj2 (Update_keeps _))). cbn [matTranslate].
  unfold Vector3Transform, MatrixMultiply, MatrixTranslate, Vector3Zero, Vector3Add.
  cbn [m0 m1 m2 m4 m5 m6 m8 m9 m10 m12 m13 m14 v3_x v3_y v3_z fadd fmul fone fzero exact].
  rewrite H15. f_equal; ring.
Qed.

Lemma ColliderPosition_rotation (col : Collider R) (axis : Vector3 R) (ang : R) :
  ColliderPosition (SetColliderRotation col axis ang) = ColliderPosition col /\
  ColliderPosition (AddColliderRotation col axis ang) = ColliderPosition col.
Proof.
  unfold ColliderPosition, SetColliderRotation, AddColliderRotation. cbv zeta.
  rewrite !(proj2 (proj2 (Update_keeps _))). split; reflexivity.
Qed.

(** A pair with a separating axis: no correction. *)
Lemma GetCollisionCorrection_apart (a b : Collider R) :
  TestColliderPair a b = false -> GetCollisionCorrection a b = Vector3Zero.
Proof.
  intros E. unfold TestColliderPair in E. apply TestAxes_false_iff in E.
  destruct E as (i & Hi & Hs). rewrite GetCollisionVectors_length in Hi.
  exact (proj2 (proj2 (GetCollisionCorrection_separated (ops := exact)
                         exact_feqb_zero_zero a b i Hi Hs))).
Qed.

Lemma ResolveCollisions_apart (player block ramp plane : Collider R) :
  well_formed player ->
  TestColliderPair player block = false ->
  TestColliderPair player ramp = false ->
  TestColliderPair player plane = false ->
  ResolveCollisions player block ramp plane = player.
Proof.
  intros Hwf H1 H2 H3. unfold ResolveCollisions. cbv zeta.
  rewrite (GetCollisionCorrection_apart _ _ H1), (AddColliderTranslation_Zero _ Hwf).
  rewrite (GetCollisionCorrection_apart _ _ H2), (AddColliderTranslation_Zero _ Hwf).
  rewrite (GetCollisionCorrection_apart _ _ H3), (AddColliderTranslation_Zero _ Hwf).
  reflexivity.
Qed.

(** The unit cube and its copy three units along x are apart. *)
Lemma unit_cube_far_apart :
  TestColliderPair (mutate_all unit_cube_made []) unit_cube_far = false.
Proof.
  cbn [mutate_all fold_left]. unfold unit_cube_far, unit_cube.
  unfold TestColliderPair. apply TestAxes_false_iff. exists 0%nat.
  split; [rewrite GetCollisionVectors_length; lia|].
  rewrite GetCollisionVectors_eq. cbv zeta. cbn [nth].
  rewrite (GetColliderProjectionBounds_moved _ _ _ (CreateCollider_well_formed _ _)).
  set (v := Vector3Transform unitX (matRotate unit_cube_made)).
  destruct (bounds_attained unit_cube_made v) as [(i & Hi & Hx) (j & Hj & Hy)].
  unfold disjoint, shift. cbn [v2_x v2_y fltb fadd exact].
  apply orb_true_iff. right. apply exact_flt.
  rewrite Hx, Hy. subst v. rewrite CreateCollider_vertGlobal.
  unfold COLLIDER_VERTEX_COUNT in Hi, Hj.
  unfold CreateCollider. rewrite !(proj1 (Update_keeps _)), (proj1 (proj2 (Update_keeps _))).
  cbn [vertLocal matRotate].
  unfold Vector3DotProduct, Vector3Transform, MatrixIdentity, unitX.
  cbn [m0 m1 m2 m4 m5 m6 m8 m9 m10 m12 m13 m14 v3_x v3_y v3_z fadd fmul fone fzero exact].
  do 8 (destruct i as [|i];
        [do 8 (destruct j as [|j]; [cbn [vget vert0 vert1 vert2 vert3 vert4 vert5 vert6 vert7 v3_x v3_y v3_z]; lra|]); lia|]).
  lia.
Qed.
End ExactExample.

Section ExactCalls.
Local Open Scope R_scope.

Lemma Vector3Transform_scaling (v : Vector3 R) (c : R) :
  Vector3Transform v (mkMatrix c 0 0 0  0 c 0 0  0 0 c 0  0 0 0 1) = Vector3Scale v c.
Proof.
  unfold Vector3Transform, Vector3Scale.
  cbn [m0 m1 m2 m4 m5 m6 m8 m9 m10 m12 m13 m14 fadd fmul exact]. f_equal; ring.
Qed.

Lemma AddColliderRotation_0 (col : Collider R) (axis : Vector3 R) :
  well_formed col -> AddColliderRotation col axis 0 = col.
Proof.
  intros (Hc & _ & _). unfold AddColliderRotation. cbv zeta.
  rewrite MatrixRotate_0, MatrixMultiply_Identity_r.
  destruct col as [L G Rot T]. cbn [vertLocal vertGlobal matRotate matTranslate].
  exact (Update_fixed _ Hc).
Qed.

Lemma translations_add (col : Collider R) (p q : Vector3 R) :
  AddColliderTranslation (SetColliderTranslation col p) q =
  SetColliderTranslation col (Vector3Add p q).
Proof.
  unfold AddColliderTranslation, SetColliderTranslation. cbv zeta.
  rewrite !UpdateColliderGlobalVerts_eq. cbv zeta.
  cbn [vertLocal matRotate matTranslate].
  rewrite MatrixTranslate_add. reflexivity.
Qed.

Lemma zero_axis_vertGlobal (col : Collider R) (ang : R) (i : nat) :
  (i < COLLIDER_VERTEX_COUNT)%nat ->
  vget (vertGlobal (SetColliderRotation col Vector3Zero ang)) i =
  Vector3Transform (Vector3Scale (vget (vertLocal col) i) (cos ang)) (matTranslate col).
Proof.
  intros Hi. unfold SetColliderRotation.
  rewrite (@Update_consistent _ _ _ i Hi). unfold GetColliderTransform.
  rewrite (proj1 (Update_keeps _)), (proj1 (proj2 (Update_keeps _))),
    (proj2 (proj2 (Update_keeps _))).
  cbn [vertLocal matRotate matTranslate].
  rewrite (Vector3Transform_MatrixMultiply _ _ _ (MatrixRotate_affine _ _)).
  rewrite MatrixRotate_Zero, Vector3Transform_scaling. reflexivity.
Qed.

Lemma GetColliderTransform_fresh (min max : Vector3 R) :
  GetColliderTransform (CreateCollider min max) = MatrixIdentity.
Proof.
  unfold GetColliderTransform, CreateCollider.
  rewrite (proj1 (proj2 (Update_keeps _))), (proj2 (proj2 (Update_keeps _))).
  cbn [matRotate matTranslate]. apply MatrixMultiply_Identity_r.
Qed.
End ExactCalls.

(** * The claims *)

(** C1: [TestColliderPair a b] is [false] exactly when, on one of the fifteen
    candidate axes, the projection intervals are disjoint (one maximum
    strictly below the other minimum); the loop has returned [false] once
    it has visited such an axis, whatever the cells behind it hold; and the
    result is [true] when the intervals overlap on all fifteen. *)
Theorem TestColliderPair_separating_axis
  (F : Type) (ops : FloatOps F) (a b : Collider F) :
  length (GetCollisionVectors a b) = 15 /\
  (TestColliderPair a b = false <->
   exists i, i < 15 /\ separated_on a b (axis a b i) = true) /\
  (forall i, i < 15 -> separated_on a b (axis a b i) = true ->
     TestAxes a b (firstn (S i) (GetCollisionVectors a b)) = false) /\
  ((forall i, i < 15 -> separated_on a b (axis a b i) = false) ->
   TestColliderPair a b = true).
Proof.
  split; [reflexivity|]. split; [|split].
  - unfold TestColliderPair. rewrite TestAxes_false_iff, GetCollisionVectors_length.
    reflexivity.
  - intros i Hi Hs. apply TestAxes_stops; [|exact Hs].
    rewrite GetCollisionVectors_length. exact Hi.
  - intros H. destruct (TestColliderPair a b) eqn:E; [reflexivity|].
    unfold TestColliderPair in E. apply TestAxes_false_iff in E.
    destruct E as (i & Hi & Hs). rewrite GetCollisionVectors_length in Hi.
    rewrite (H i Hi) in Hs. discriminate.
Qed.

(** The two cubes three units apart are separated on the first axis, and
    the loop stops there. *)
Lemma TestColliderPair_separating_axis_witness :
  TestColliderPair cube cube_apart = false /\
  TestAxes cube cube_apart (firstn 1 (GetCollisionVectors cube cube_apart)) = false.
Proof.
  pose proof (TestColliderPair_separating_axis spec_float binary32 cube cube_apart) as (_ & Hiff & Hstop & _).
  split.
  - apply Hiff. exists 0. split; [apply Nat.lt_0_succ | vm_compute; reflexivity].
  - apply (Hstop 0); [apply Nat.lt_0_succ | vm_compute; reflexivity].
Defined.

(** C7: in exact arithmetic, [TestColliderPair a b] and
    [TestColliderPair b a] are equal.  Swapping the colliders permutes the
    six face axes and turns each cross-product axis into its opposite (or
    leaves the substituted x axis), and neither changes the test on an
    axis. *)
Theorem TestColliderPair_symmetric (a b : Collider R) :
  TestColliderPair a b = TestColliderPair b a.
Proof.
  unfold TestColliderPair. rewrite !TestAxes_forallb, !GetCollisionVectors_eq.
  cbv zeta.
  generalize (Vector3Transform unitX (matRotate a)) (Vector3Transform unitY (matRotate a))
    (Vector3Transform unitZ (matRotate a)) (Vector3Transform unitX (matRotate b))
    (Vector3Transform unitY (matRotate b)) (Vector3Transform unitZ (matRotate b)).
  intros ax ay az bx by_ bz. cbn [forallb].
  rewrite (separated_on_CrossAxis a b ax bx), (separated_on_CrossAxis a b ax by_),
    (separated_on_CrossAxis a b ax bz), (separated_on_CrossAxis a b ay bx),
    (separated_on_CrossAxis a b ay by_), (separated_on_CrossAxis a b ay bz),
    (separated_on_CrossAxis a b az bx), (separated_on_CrossAxis a b az by_),
    (separated_on_CrossAxis a b az bz).
  rewrite (separated_on_sym a b ax), (separated_on_sym a b ay), (separated_on_sym a b az),
    (separated_on_sym a b bx), (separated_on_sym a b by_), (separated_on_sym a b bz).
  repeat match goal with
  | |- context [disjoint ?A ?B] =>
      let t := fresh "t" in generalize (disjoint A B); intros t
  end.
  btauto.
Qed.

(** C3: after each of the four mutators the world vertices are the local
    ones transformed by [MatrixMultiply matRotate matTranslate] as the
    struct then holds them, from any struct and in any arithmetic; so it is
    after any sequence of calls on a created collider; and in exact
    arithmetic that transform is the rotation followed by the
    translation. *)
Theorem world_vertices_follow_mutations :
  (forall (F : Type) (ops : FloatOps F) (trig : TrigOps F)
          (col : Collider F) (m : Mutation F),
     consistent (mutate col m)) /\
  (forall (F : Type) (ops : FloatOps F) (trig : TrigOps F)
          (min max : Vector3 F) (ms : list (Mutation F)),
     consistent (mutate_all (CreateCollider min max) ms) /\
     vertLocal (mutate_all (CreateCollider min max) ms)
       = vertLocal (CreateCollider min max)) /\
  (forall (min max : Vector3 R) (ms : list (Mutation R)),
     rotated_then_translated (mutate_all (CreateCollider min max) ms)).
Proof.
  split; [|split].
  - intros F ops trig col m. apply mutate_consistent.
  - intros F ops trig min max ms. split.
    + apply mutate_all_consistent, CreateCollider_consistent.
    + apply mutate_all_vertLocal.
  - intros min max ms. apply consistent_rotated_then_translated.
    + apply mutate_all_affine, CreateCollider_affine.
    + apply mutate_all_consistent, CreateCollider_consistent.
Qed.

(** C4, as stated, fails: [cube_near] starts at 1 on the x axis, above the
    0 where [cube] starts; the overlap is [b.max - a.min = 2 - 1 = 1] and the
    correction returned is [(1, 0, 0)], forwards along the axis, where the
    claim has it backwards. *)
Lemma sign_as_stated_fails :
  axis cube_near cube 0 = mkVector3 (b32_of_Z 1) fzero fzero /\
  GetColliderProjectionBounds cube_near (axis cube_near cube 0)
    = mkVector2 (b32_of_Z 1) (b32_of_Z 3) /\
  GetColliderProjectionBounds cube (axis cube_near cube 0)
    = mkVector2 fzero (b32_of_Z 2) /\
  depth cube_near cube 0 = b32_of_Z 1 /\
  GetCollisionCorrection cube_near cube = mkVector3 (b32_of_Z 1) fzero fzero /\
  ~ sign_as_stated (mkVector2 (b32_of_Z 1) (b32_of_Z 3)) (mkVector2 fzero (b32_of_Z 2)).
Proof.
  do 5 (split; [vm_compute; reflexivity|]).
  intros [H _]. destruct (H eq_refl) as [_ Hneg]. vm_compute in Hneg. discriminate Hneg.
Qed.

(** C4, amended: where the intervals are not disjoint the overlap is
    [b.max - a.min] if [a.min > b.min] and [b.min - a.max] otherwise, in any
    arithmetic; in exact arithmetic a nonzero overlap is positive in the
    first case (the correction points forwards along the axis) and negative
    in the second (backwards); and what [GetCollisionCorrection] returns,
    if not the zero vector, is an axis scaled by its nonzero overlap. *)
Theorem GetOverlap_sign_convention :
  (forall (F : Type) (ops : FloatOps F) (A B : Vector2 F),
     disjoint A B = false ->
     GetOverlap A B
       = (if v2_x A > v2_x B then v2_y B - v2_x A else v2_x B - v2_y A)%fl) /\
  (forall A B : Vector2 R,
     GetOverlap A B <> 0%R ->
     ((v2_x A > v2_x B)%R ->
      GetOverlap A B = (v2_y B - v2_x A)%R /\ (0 < GetOverlap A B)%R) /\
     ((v2_x A <= v2_x B)%R ->
      GetOverlap A B = (v2_x B - v2_y A)%R /\ (GetOverlap A B < 0)%R)) /\
  (forall a b : Collider R,
     GetCollisionCorrection a b = Vector3Zero \/
     exists i, i < 15 /\ depth a b i <> 0%R /\
       GetCollisionCorrection a b = Vector3Scale (axis a b i) (depth a b i)).
Proof.
  split; [|split].
  - intros F ops A B. apply GetOverlap_overlapping.
  - exact GetOverlap_sign.
  - intros a b.
    destruct (GetCollisionCorrection_cases (ops := exact)
                exact_flt_trans exact_fmul_zero_hundred a b)
      as [H | (i & Hi & H & _ & Hnz)].
    + left. exact H.
    + right. exists i. split; [exact Hi|]. split; [|exact H].
      apply exact_feq_false. exact Hnz.
Qed.

(** The intervals [1, 3] and [0, 2]: overlap [2 - 1]. *)
Lemma GetOverlap_sign_convention_witness :
  GetOverlap (mkVector2 (b32_of_Z 1) (b32_of_Z 3)) (mkVector2 fzero (b32_of_Z 2))
  = (b32_of_Z 2 - b32_of_Z 1)%fl.
Proof.
  exact (proj1 GetOverlap_sign_convention spec_float binary32
           (mkVector2 (b32_of_Z 1) (b32_of_Z 3)) (mkVector2 fzero (b32_of_Z 2))
           eq_refl).
Defined.

(** C5: when the intervals are disjoint on one of the fifteen axes,
    [GetOverlap] gives [0.f] there, the loop has returned the zero vector
    once it has visited that axis, and [GetCollisionCorrection] returns the
    zero vector: an ordinary result, the function has no other channel. *)
Theorem GetCollisionCorrection_disjoint_zero
  (a b : Collider spec_float) (i : nat) :
  i < 15 -> separated_on a b (axis a b i) = true ->
  depth a b i = fzero /\
  CorrectionLoop a b (firstn (S i) (GetCollisionVectors a b))
                 fhundred (mkVector3 fzero fzero fzero) = Vector3Zero /\
  GetCollisionCorrection a b = Vector3Zero.
Proof. exact (GetCollisionCorrection_separated (ops := binary32) eq_refl a b i). Qed.

Lemma GetCollisionCorrection_disjoint_zero_witness :
  GetCollisionCorrection cube cube_apart = Vector3Zero.
Proof.
  refine (proj2 (proj2 (GetCollisionCorrection_disjoint_zero cube cube_apart
                         0 (Nat.lt_0_succ _) _))).
  vm_compute. reflexivity.
Defined.

(** A fact about every index below a bound, from a computation. *)
Lemma below_all (f : nat -> bool) (n : nat) :
  forallb f (seq 0 n) = true -> forall k, k < n -> f k = true.
Proof.
  intros H k Hk. rewrite forallb_forall in H. apply H, in_seq. lia.
Qed.

Lemma below_none (f : nat -> bool) (n : nat) :
  forallb (fun k => negb (f k)) (seq 0 n) = true -> forall k, k < n -> f k = false.
Proof.
  intros H k Hk. apply negb_true_iff. exact (below_all _ n H k Hk).
Qed.

(** C8: when several axes share the least absolute overlap, the function
    returns the first of them in the order of [testVec] (the axes of [a],
    the axes of [b], the nine cross products), scaled by its overlap.  The
    overlap must lie below the initial [overlapMin] and no axis may end the
    loop with a zero overlap. *)
Theorem tie_keeps_first_axis (a b : Collider spec_float) :
  GetCollisionVectors a b =
    (let ax := Vector3Transform unitX (matRotate a) in
     let ay := Vector3Transform unitY (matRotate a) in
     let az := Vector3Transform unitZ (matRotate a) in
     let bx := Vector3Transform unitX (matRotate b) in
     let by_ := Vector3Transform unitY (matRotate b) in
     let bz := Vector3Transform unitZ (matRotate b) in
     [ax; ay; az; bx; by_; bz;
      CrossAxis ax bx; CrossAxis ax by_; CrossAxis ax bz;
      CrossAxis ay bx; CrossAxis ay by_; CrossAxis ay bz;
      CrossAxis az bx; CrossAxis az by_; CrossAxis az bz]) /\
  forall i, i < 15 ->
    (forall k, k < 15 -> (depth a b k == fzero)%fl = false) ->
    (fabs (depth a b i) < fabs fhundred)%fl = true ->
    (forall k, k < 15 -> (fabs (depth a b k) < fabs (depth a b i))%fl = false) ->
    (forall j, j < i -> (fabs (depth a b i) == fabs (depth a b j))%fl = false) ->
    GetCollisionCorrection a b = Vector3Scale (axis a b i) (depth a b i).
Proof.
  split; [exact (GetCollisionVectors_eq a b)|].
  exact (GetCollisionCorrection_first_least (ops := binary32)
           b32_flt_trans b32_flt_comparable a b).
Qed.

(** The cube moved one unit along each axis overlaps the cube by 1 on all
    three face axes: the x axis of [a], met first, is kept. *)
Lemma tie_keeps_first_axis_witness :
  GetCollisionCorrection cube cube_diagonal =
  Vector3Scale (axis cube cube_diagonal 0) (depth cube cube_diagonal 0).
Proof.
  refine (proj2 (tie_keeps_first_axis cube cube_diagonal) 0 (Nat.lt_0_succ _) _ _ _ _).
  - apply (below_none (fun k => (depth cube cube_diagonal k == fzero)%fl) 15).
    vm_compute. reflexivity.
  - vm_compute. reflexivity.
  - apply (below_none
             (fun k => (fabs (depth cube cube_diagonal k)
                        < fabs (depth cube cube_diagonal 0))%fl) 15).
    vm_compute. reflexivity.
  - intros j Hj. exact (match Nat.nlt_0_r j Hj with end).
Defined.

(** C2 (the code falls short of it): the two cubes of side 1000 overlap by
    500 on every axis, the least correction would be 500 along the first
    axis, yet the function returns the zero vector: no overlap is below the
    initial [overlapMin = 100.f]. *)
Theorem deep_overlap_returns_zero :
  TestColliderPair big big_moved = true /\
  (forall k, k < 15 -> (depth big big_moved k == fzero)%fl = false) /\
  (forall k, k < 15 ->
     (fabs (depth big big_moved k) == fabs (depth big big_moved 0))%fl = true) /\
  Vector3Scale (axis big big_moved 0) (depth big big_moved 0)
    = mkVector3 (b32_of_Z (-500)) (S754_zero true) (S754_zero true) /\
  GetCollisionCorrection big big_moved = Vector3Zero.
Proof.
  split; [vm_compute; reflexivity|]. split; [|split; [|split]].
  - apply (below_none (fun k => (depth big big_moved k == fzero)%fl) 15).
    vm_compute. reflexivity.
  - apply (below_all
             (fun k => (fabs (depth big big_moved k)
                        == fabs (depth big big_moved 0))%fl) 15).
    vm_compute. reflexivity.
  - vm_compute. reflexivity.
  - vm_compute. reflexivity.
Qed.

(** C9 (first part, and the case the claim singles out): the function
    returns the zero vector or a candidate axis scaled by an overlap of
    absolute value below 100; with no such overlap it returns the zero
    vector, as for the two cubes of side 1000, which do overlap.  Second
    part: in exact arithmetic and with rotation matrices in both structs,
    the length of the returned vector is below 100. *)
Theorem correction_below_hundred :
  (forall a b : Collider spec_float,
     (GetCollisionCorrection a b = Vector3Zero \/
      exists i, i < 15 /\
        GetCollisionCorrection a b = Vector3Scale (axis a b i) (depth a b i) /\
        (fabs (depth a b i) < fabs fhundred)%fl = true) /\
     ((forall k, k < 15 -> (fabs (depth a b k) < fabs fhundred)%fl = false) ->
      GetCollisionCorrection a b = Vector3Zero)) /\
  (TestColliderPair big big_moved = true /\
   (forall k, k < 15 -> (fabs (depth big big_moved k) < fabs fhundred)%fl = false) /\
   GetCollisionCorrection big big_moved = Vector3Zero) /\
  (forall a b : Collider R,
     unit_axes (matRotate a) -> unit_axes (matRotate b) ->
     (Vector3Length (GetCollisionCorrection a b) < 100)%R).
Proof.
  split; [|split].
  - intros a b. split.
    + destruct (GetCollisionCorrection_cases (ops := binary32)
                  b32_flt_trans eq_refl a b) as [H | (i & Hi & H & Hlt & _)].
      * left. exact H.
      * right. exists i. repeat split; assumption.
    + exact (GetCollisionCorrection_capped (ops := binary32) eq_refl a b).
  - split; [vm_compute; reflexivity|]. split; [|vm_compute; reflexivity].
    apply (below_none
             (fun k => (fabs (depth big big_moved k) < fabs fhundred)%fl) 15).
    vm_compute. reflexivity.
  - intros a b Ha Hb.
    destruct (GetCollisionCorrection_cases (ops := exact)
                exact_flt_trans exact_fmul_zero_hundred a b)
      as [H | (i & Hi & H & Hlt & _)]; rewrite H.
    + rewrite Vector3Length_Zero. lra.
    + apply Vector3Length_scale_lt.
      * apply axis_length; assumption.
      * apply exact_flt in Hlt. cbn [fabs fhundred exact] in Hlt.
        rewrite (Rabs_pos_eq 100) in Hlt by lra. exact Hlt.
Qed.

Lemma MatrixIdentity_unit_axes : unit_axes MatrixIdentity.
Proof.
  unfold unit_axes, Vector3LengthSqr, Vector3Transform, unitX, unitY, unitZ.
  cbn. repeat split; ring.
Qed.

Lemma correction_below_hundred_witness :
  (Vector3Length (GetCollisionCorrection unit_cube unit_cube) < 100)%R.
Proof.
  refine (proj2 (proj2 correction_below_hundred) unit_cube unit_cube _ _);
    exact MatrixIdentity_unit_axes.
Defined.

(** [half_turned] is what [SetColliderRotation] leaves with any [sinf] and
    [cosf] that return these values at [PI]. *)
Lemma SetColliderRotation_half_turned (trig : TrigOps spec_float) :
  fsin raylib_PI = sinf_PI -> fcos raylib_PI = cosf_PI ->
  SetColliderRotation (box (-100) (-100) (-100) 100 100 100) slanted_axis raylib_PI =
  half_turned.
Proof.
  intros Hs Hc. unfold half_turned, SetColliderRotation, MatrixRotate.
  rewrite Hs, Hc. reflexivity.
Qed.

(** C9 (the length of the vector, on floats): [half_turned] and [nearby]
    overlap, and the correction is the first candidate axis scaled by its
    overlap, -99.9999847, of absolute value below 100.  That axis is the
    first column of the rotation matrix, (1, 2^-11, 2^-11) up to rounding,
    which is longer than 1: the vector returned is
    (-99.9999847, -0.0488281138, -0.0488281175).  Its length is not below
    100, neither as [Vector3Length] computes it in single precision
    (100.0000076) nor without rounding. *)
Lemma correction_reaches_hundred :
  TestColliderPair half_turned nearby = true /\
  GetCollisionCorrection half_turned nearby =
    Vector3Scale (axis half_turned nearby 0) (depth half_turned nearby 0) /\
  GetCollisionCorrection half_turned nearby =
    mkVector3 (S754_finite true 13107198 (-17)) (S754_finite true 13107197 (-28))
              (S754_finite true 13107198 (-28)) /\
  (fabs (depth half_turned nearby 0) < fabs fhundred)%fl = true /\
  (Vector3Length (GetCollisionCorrection half_turned nearby) < fhundred)%fl = false /\
  (fhundred <= Vector3Length (GetCollisionCorrection half_turned nearby))%fl = true /\
  QArith_base.Qle_bool (QArith_base.inject_Z 10000)
    (exact_length_sqr (GetCollisionCorrection half_turned nearby)) = true.
Proof. repeat split; vm_compute; reflexivity. Qed.

(** What [SetColliderRotation] stores for these axes, with any [sinf] and
    [cosf] that return the given values at the angle. *)
Lemma MatrixRotate_about_x (trig : TrigOps spec_float) (ang : spec_float) :
  fcos ang = half_sqrt2 ->
  (fsin ang = half_sqrt2 ->
   MatrixRotate unitX ang = about_x half_sqrt2 half_sqrt2) /\
  (fsin ang = (fzero - half_sqrt2)%fl ->
   MatrixRotate unitX ang = about_x half_sqrt2 (fzero - half_sqrt2)%fl).
Proof.
  intros Hc. split; intros Hs; unfold MatrixRotate; rewrite Hs, Hc;
    vm_compute; reflexivity.
Qed.

Lemma MatrixRotate_about_z (trig : TrigOps spec_float) (ang : spec_float) :
  fcos ang = half_sqrt2 -> fsin ang = half_sqrt2 ->
  MatrixRotate unitZ ang = about_z half_sqrt2 half_sqrt2.
Proof.
  intros Hc Hs. unfold MatrixRotate. rewrite Hs, Hc. vm_compute. reflexivity.
Qed.

Lemma SetColliderRotation_leaning (trig : TrigOps spec_float) (ang : spec_float) :
  fcos ang = half_sqrt2 -> fsin ang = half_sqrt2 ->
  SetColliderRotation centred unitX ang = leaning.
Proof.
  intros Hc Hs. unfold SetColliderRotation, leaning, with_rotation.
  rewrite (proj1 (MatrixRotate_about_x trig ang Hc) Hs). reflexivity.
Qed.

Lemma SetColliderRotation_leaning_back (trig : TrigOps spec_float) (ang : spec_float) :
  fcos ang = half_sqrt2 -> fsin ang = (fzero - half_sqrt2)%fl ->
  SetColliderRotation centred unitX ang = leaning_back.
Proof.
  intros Hc Hs. unfold SetColliderRotation, leaning_back, with_rotation.
  rewrite (proj2 (MatrixRotate_about_x trig ang Hc) Hs). reflexivity.
Qed.

Lemma SetColliderRotation_tilted (trig : TrigOps spec_float) (ang : spec_float) :
  fcos ang = half_sqrt2 -> fsin ang = half_sqrt2 ->
  SetColliderRotation cube unitZ ang = tilted.
Proof.
  intros Hc Hs. unfold SetColliderRotation, tilted, with_rotation.
  rewrite (MatrixRotate_about_z trig ang Hc Hs). reflexivity.
Qed.

(** C6 (the code falls short of it): the z direction of [leaning] and the
    y direction of [leaning_back] are opposite, so their cross product is
    zero, but they are not equal in the sense of [Vector3Equals]: the x axis
    is not substituted and [testVec[13]] is the zero vector.  On it both
    projections are the point 0, the overlap is 0, and
    [GetCollisionCorrection] returns the zero vector for two cubes with the
    same centre. *)
Theorem opposite_directions_give_zero_axis :
  axis leaning leaning_back 2
    = mkVector3 fzero (fzero - half_sqrt2)%fl half_sqrt2 /\
  axis leaning leaning_back 4
    = mkVector3 fzero half_sqrt2 (fzero - half_sqrt2)%fl /\
  Vector3Equals (axis leaning leaning_back 2) (axis leaning leaning_back 4) = false /\
  Vector3CrossProduct (axis leaning leaning_back 2) (axis leaning leaning_back 4)
    = Vector3Zero /\
  axis leaning leaning_back 13 = Vector3Zero /\
  depth leaning leaning_back 13 = fzero /\
  (forall k, k < 13 -> (depth leaning leaning_back k == fzero)%fl = false) /\
  TestColliderPair leaning leaning_back = true /\
  GetCollisionCorrection leaning leaning_back = Vector3Zero.
Proof.
  do 6 (split; [vm_compute; reflexivity|]). split; [|split; vm_compute; reflexivity].
  apply (below_none (fun k => (depth leaning leaning_back k == fzero)%fl) 13).
  vm_compute. reflexivity.
Qed.

(** C10, as stated, fails: on [testVec[0]] the interval of [speck] is the
    point 0 and that of [tilted] starts at 0, so the two touch; no axis
    separates the pair; the test says they overlap; but the overlap computed
    on [testVec[0]] is [b.min - a.max], not zero, and the correction is not
    the zero vector. *)
Lemma touching_speck_is_corrected :
  touching (GetColliderProjectionBounds tilted (axis tilted speck 0))
           (GetColliderProjectionBounds speck (axis tilted speck 0)) = true /\
  (forall k, k < 15 -> separated_on tilted speck (axis tilted speck k) = false) /\
  TestColliderPair tilted speck = true /\
  (depth tilted speck 0 == fzero)%fl = false /\
  GetCollisionCorrection tilted speck
    = mkVector3 half_sqrt2 (S754_zero true) (S754_zero true) /\
  GetCollisionCorrection tilted speck <> Vector3Zero.
Proof.
  split; [vm_compute; reflexivity|]. split; [|split; [|split; [|split]]].
  - apply (below_none (fun k => separated_on tilted speck (axis tilted speck k)) 15).
    vm_compute. reflexivity.
  - vm_compute. reflexivity.
  - vm_compute. reflexivity.
  - vm_compute. reflexivity.
  - intros H. vm_compute in H. discriminate H.
Qed.

(** C10, amended: when on one axis the intervals touch at a finite value,
    [a]'s maximum being [b]'s minimum, or [b]'s maximum being [a]'s minimum
    with [b] starting strictly below, and no other axis separates the
    colliders, [TestColliderPair] is [true] and [GetCollisionCorrection] is
    the zero vector. *)
Theorem clean_touch_detected_not_resolved (a b : Collider spec_float) (i : nat) :
  i < 15 ->
  clean_touch SFfinite (GetColliderProjectionBounds a (axis a b i))
                       (GetColliderProjectionBounds b (axis a b i)) ->
  (forall k, k < 15 -> k <> i -> separated_on a b (axis a b k) = false) ->
  TestColliderPair a b = true /\ GetCollisionCorrection a b = Vector3Zero.
Proof.
  exact (@clean_touch_pair spec_float binary32 SFfinite SFltb_irrefl SFltb_trans
           b32_feq_not_lt b32_feq_lt_l b32_feq_lt_r SFeqb_sym b32_fsub_eq_zero
           eq_refl b32_bounds_lo a b i).
Qed.

(** The cube and its copy two units along x: the first ends where the
    second starts. *)
Lemma clean_touch_detected_not_resolved_witness :
  TestColliderPair cube cube_touching = true /\
  GetCollisionCorrection cube cube_touching = Vector3Zero.
Proof.
  refine (clean_touch_detected_not_resolved cube cube_touching 0 (Nat.lt_0_succ _) _ _).
  - left. split; vm_compute; reflexivity.
  - intros k Hk _. revert k Hk.
    apply (below_none
             (fun k => separated_on cube cube_touching (axis cube cube_touching k)) 15).
    vm_compute. reflexivity.
Defined.

(** * Further properties of the code *)

(** X1: on IEEE single precision, for all structs (NaNs, infinities and
    signed zeros included), [TestColliderPair a b] and
    [TestColliderPair b a] are equal. *)
Theorem TestColliderPair_symmetric_binary32 (a b : Collider spec_float) :
  TestColliderPair a b = TestColliderPair b a.
Proof.
  exact (@TestColliderPair_swap spec_float binary32 b32_separated_on_CrossAxis a b).
Qed.

(** X2: on IEEE single precision every struct overlaps itself:
    [TestColliderPair a a] is [true], whatever the vertices hold. *)
Theorem TestColliderPair_reflexive (a : Collider spec_float) :
  TestColliderPair a a = true.
Proof.
  exact (@TestColliderPair_same spec_float binary32
           (fun col v => b32_bounds_not_reversed col v) a).
Qed.

(** X3: a correction other than the zero vector is only returned for a
    pair that [TestColliderPair] reports as overlapping. *)
Theorem nonzero_correction_means_overlap (a b : Collider spec_float) :
  GetCollisionCorrection a b <> Vector3Zero -> TestColliderPair a b = true.
Proof. exact (@GetCollisionCorrection_nonzero spec_float binary32 eq_refl a b). Qed.

(** The cube moved one unit along x, against the cube. *)
Lemma nonzero_correction_means_overlap_witness :
  TestColliderPair cube_near cube = true.
Proof.
  apply (nonzero_correction_means_overlap cube_near cube).
  vm_compute. intros H. discriminate H.
Defined.

(** X4: in every arithmetic, both ends of the interval returned by
    [GetColliderProjectionBounds] are projections of vertices of the
    collider: nothing else is ever returned. *)
Theorem bounds_are_vertex_projections
  (F : Type) (ops : FloatOps F) (col : Collider F) (vec : Vector3 F) :
  (exists i, i < COLLIDER_VERTEX_COUNT /\
     v2_x (GetColliderProjectionBounds col vec) =
     Vector3DotProduct (vget (vertGlobal col) i) vec) /\
  (exists i, i < COLLIDER_VERTEX_COUNT /\
     v2_y (GetColliderProjectionBounds col vec) =
     Vector3DotProduct (vget (vertGlobal col) i) vec).
Proof. exact (bounds_attained col vec). Qed.

(** X5: on IEEE single precision, the projection of each vertex that is
    not a NaN lies between the two ends returned by
    [GetColliderProjectionBounds]; NaN projections are skipped. *)
Theorem projections_inside_bounds
  (col : Collider spec_float) (vec : Vector3 spec_float) (i : nat) :
  i < COLLIDER_VERTEX_COUNT ->
  fisnan (Vector3DotProduct (vget (vertGlobal col) i) vec) = false ->
  encloses (GetColliderProjectionBounds col vec)
           (Vector3DotProduct (vget (vertGlobal col) i) vec) = true.
Proof.
  intros Hi Hn. apply b32_bounds_enclose; [exact Hi|].
  apply negb_false_iff. exact Hn.
Qed.

Lemma projections_inside_bounds_witness :
  encloses (GetColliderProjectionBounds cube_near (vec3Z 1 0 0))
           (Vector3DotProduct (vget (vertGlobal cube_near) 2) (vec3Z 1 0 0)) = true.
Proof.
  apply (projections_inside_bounds cube_near (vec3Z 1 0 0) 2).
  - apply Nat.ltb_lt. reflexivity.
  - vm_compute. reflexivity.
Defined.

(** X6: on IEEE single precision, when the minima of two intervals differ,
    [GetOverlap B A] is the opposite of [GetOverlap A B], or both are
    zeros. *)
Theorem GetOverlap_exchanged (A B : Vector2 spec_float) :
  (v2_x A < v2_x B)%fl = true \/ (v2_x B < v2_x A)%fl = true ->
  GetOverlap B A = SFopp (GetOverlap A B) \/
  (SFis_zero (GetOverlap A B) = true /\ SFis_zero (GetOverlap B A) = true).
Proof. exact (b32_GetOverlap_swap A B). Qed.

Lemma GetOverlap_exchanged_witness :
  GetOverlap (mkVector2 (b32_of_Z 0) (b32_of_Z 2)) (mkVector2 (b32_of_Z 1) (b32_of_Z 3)) =
  SFopp (GetOverlap (mkVector2 (b32_of_Z 1) (b32_of_Z 3))
                    (mkVector2 (b32_of_Z 0) (b32_of_Z 2))) \/
  (SFis_zero (GetOverlap (mkVector2 (b32_of_Z 1) (b32_of_Z 3))
                         (mkVector2 (b32_of_Z 0) (b32_of_Z 2))) = true /\
   SFis_zero (GetOverlap (mkVector2 (b32_of_Z 0) (b32_of_Z 2))
                         (mkVector2 (b32_of_Z 1) (b32_of_Z 3))) = true).
Proof.
  apply (GetOverlap_exchanged (mkVector2 (b32_of_Z 1) (b32_of_Z 3))
           (mkVector2 (b32_of_Z 0) (b32_of_Z 2))).
  right. vm_compute. reflexivity.
Defined.

(** X7: in every arithmetic, a rotation call and a translation call on the
    same collider can be exchanged: the struct obtained is the same. *)
Theorem rotation_and_translation_commute
  (F : Type) (ops : FloatOps F) (trig : TrigOps F)
  (col : Collider F) (axis pos : Vector3 F) (ang : F) :
  SetColliderRotation (SetColliderTranslation col pos) axis ang =
  SetColliderTranslation (SetColliderRotation col axis ang) pos /\
  AddColliderRotation (AddColliderTranslation col pos) axis ang =
  AddColliderTranslation (AddColliderRotation col axis ang) pos /\
  SetColliderRotation (AddColliderTranslation col pos) axis ang =
  AddColliderTranslation (SetColliderRotation col axis ang) pos /\
  AddColliderRotation (SetColliderTranslation col pos) axis ang =
  SetColliderTranslation (AddColliderRotation col axis ang) pos.
Proof.
  split; [apply set_rotation_translation_commute|].
  split; [apply add_rotation_translation_commute|].
  apply set_add_commute.
Qed.

(** X8: in every arithmetic, [SetColliderTranslation] and
    [SetColliderRotation] discard what earlier calls of the same kind
    stored: the struct is the one obtained without them. *)
Theorem set_discards_earlier_calls
  (F : Type) (ops : FloatOps F) (trig : TrigOps F)
  (col : Collider F) (p pos ax axis : Vector3 F) (g ang : F) :
  SetColliderTranslation (SetColliderTranslation col p) pos = SetColliderTranslation col pos /\
  SetColliderTranslation (AddColliderTranslation col p) pos = SetColliderTranslation col pos /\
  SetColliderRotation (SetColliderRotation col ax g) axis ang = SetColliderRotation col axis ang /\
  SetColliderRotation (AddColliderRotation col ax g) axis ang = SetColliderRotation col axis ang.
Proof.
  destruct (set_translation_overwrites col p pos) as [H1 H2].
  destruct (set_rotation_overwrites col ax axis g ang) as [H3 H4].
  repeat split; assumption.
Qed.

(** X9: on IEEE single precision, once [SetColliderTranslation] or
    [AddColliderTranslation] has been given a position with a NaN
    coordinate, the collider is reported as overlapping every collider, in
    both orders, and no correction is returned for it. *)
Theorem nan_position_overlaps_everything
  (col a b : Collider spec_float) (pos : Vector3 spec_float) :
  has_nan S754_nan pos ->
  a = SetColliderTranslation col pos \/ a = AddColliderTranslation col pos ->
  TestColliderPair a b = true /\ TestColliderPair b a = true /\
  GetCollisionCorrection a b = Vector3Zero /\ GetCollisionCorrection b a = Vector3Zero.
Proof.
  intros Hp Ha. apply b32_nan_collides.
  intros i. exact (b32_translation_nan col a pos i Hp Ha).
Qed.

(** The cube sent to a position whose x is a NaN, against the cube three
    units away. *)
Lemma nan_position_overlaps_everything_witness :
  TestColliderPair
    (SetColliderTranslation cube (mkVector3 S754_nan fzero fzero)) cube_apart = true.
Proof.
  refine (proj1 (nan_position_overlaps_everything cube _ cube_apart
                   (mkVector3 S754_nan fzero fzero) _ (or_introl eq_refl))).
  left. reflexivity.
Defined.

(** X10: in exact arithmetic, [AddColliderTranslation] by [q] after
    [SetColliderTranslation] to [p] is [SetColliderTranslation] to
    [p + q], and adding the zero vector to a collider made by
    [CreateCollider] and the mutators leaves the struct as it is. *)
Theorem translations_accumulate :
  (forall (col : Collider R) (p q : Vector3 R),
     AddColliderTranslation (SetColliderTranslation col p) q =
     SetColliderTranslation col (Vector3Add p q)) /\
  (forall (min max : Vector3 R) (ms : list (Mutation R)),
     AddColliderTranslation (mutate_all (CreateCollider min max) ms) Vector3Zero =
     mutate_all (CreateCollider min max) ms).
Proof.
  split.
  - exact translations_add.
  - intros min max ms. apply AddColliderTranslation_Zero, built_well_formed.
Qed.

(** X14: in exact arithmetic, a rotation by the angle 0 is no rotation,
    about any axis: [SetColliderRotation] stores the identity matrix, and
    [AddColliderRotation] leaves a collider made by [CreateCollider] and
    the mutators as it is. *)
Theorem zero_angle_is_no_rotation (axis : Vector3 R) :
  (forall col : Collider R,
     matRotate (SetColliderRotation col axis 0%R) = MatrixIdentity) /\
  (forall (min max : Vector3 R) (ms : list (Mutation R)),
     AddColliderRotation (mutate_all (CreateCollider min max) ms) axis 0%R =
     mutate_all (CreateCollider min max) ms).
Proof.
  split.
  - intros col. unfold SetColliderRotation.
    rewrite (proj1 (proj2 (Update_keeps _))). apply MatrixRotate_0.
  - intros min max ms. apply AddColliderRotation_0, built_well_formed.
Qed.

(** X15: in exact arithmetic, [SetColliderRotation] about the zero vector
    does not turn the box: it multiplies each local vertex by the cosine
    of the angle before the translation is applied. *)
Theorem zero_axis_scales (col : Collider R) (ang : R) (i : nat) :
  i < COLLIDER_VERTEX_COUNT ->
  vget (vertGlobal (SetColliderRotation col Vector3Zero ang)) i =
  Vector3Transform (Vector3Scale (vget (vertLocal col) i) (cos ang)) (matTranslate col).
Proof. exact (zero_axis_vertGlobal col ang i). Qed.

Lemma zero_axis_scales_witness :
  vget (vertGlobal (SetColliderRotation unit_cube Vector3Zero 1%R)) 7 =
  Vector3Transform (Vector3Scale (vget (vertLocal unit_cube) 7) (cos 1))
                   (matTranslate unit_cube).
Proof.
  apply (zero_axis_scales unit_cube 1%R 7). unfold COLLIDER_VERTEX_COUNT. lia.
Defined.

(** X17: in exact arithmetic, a collider just made by [CreateCollider] has
    its world vertices equal to its local vertices, and
    [GetColliderTransform] gives the identity matrix. *)
Theorem CreateCollider_world_is_local (min max : Vector3 R) :
  vertGlobal (CreateCollider min max) = vertLocal (CreateCollider min max) /\
  GetColliderTransform (CreateCollider min max) = MatrixIdentity.
Proof. split; [apply CreateCollider_vertGlobal | apply GetColliderTransform_fresh]. Qed.

(** X18: in exact arithmetic, the position that example.c reads off the
    translation matrix is the vector last given to
    [SetColliderTranslation], moved by each [AddColliderTranslation]
    since, and the rotation calls never change it. *)
Theorem position_follows_translations :
  (forall (col : Collider R) (p : Vector3 R),
     ColliderPosition (SetColliderTranslation col p) = p) /\
  (forall (min max : Vector3 R) (ms : list (Mutation R)) (t : Vector3 R),
     ColliderPosition (AddColliderTranslation (mutate_all (CreateCollider min max) ms) t) =
     Vector3Add (ColliderPosition (mutate_all (CreateCollider min max) ms)) t) /\
  (forall (col : Collider R) (axis : Vector3 R) (ang : R),
     ColliderPosition (SetColliderRotation col axis ang) = ColliderPosition col /\
     ColliderPosition (AddColliderRotation col axis ang) = ColliderPosition col).
Proof.
  split; [exact ColliderPosition_Set|]. split; [|exact ColliderPosition_rotation].
  intros min max ms t. apply ColliderPosition_Add.
  exact (proj2 (proj2 (built_well_formed min max ms))).
Qed.

(** X19: in exact arithmetic, the three corrections of example.c leave a
    player made by [CreateCollider] and the mutators where it is when the
    player has a separating axis against the block, the ramp and the
    plane. *)
Theorem ResolveCollisions_keeps_free_player
  (min max : Vector3 R) (ms : list (Mutation R)) (block ramp plane : Collider R) :
  let player := mutate_all (CreateCollider min max) ms in
  TestColliderPair player block = false ->
  TestColliderPair player ramp = false ->
  TestColliderPair player plane = false ->
  ResolveCollisions player block ramp plane = player.
Proof. intros player. apply ResolveCollisions_apart, built_well_formed. Qed.

(** The unit cube, with the three bodies three units away. *)
Lemma ResolveCollisions_keeps_free_player_witness :
  ResolveCollisions (mutate_all unit_cube_made []) unit_cube_far unit_cube_far unit_cube_far
  = mutate_all unit_cube_made [].
Proof.
  exact (ResolveCollisions_keeps_free_player (mkVector3 0 0 0)%R (mkVector3 1 1 1)%R []
           unit_cube_far unit_cube_far unit_cube_far
           unit_cube_far_apart unit_cube_far_apart unit_cube_far_apart).
Defined.

(** X20: on IEEE single precision, two colliders that have a world vertex
    in common are reported as overlapping, provided the projection of that
    vertex on each of the fifteen candidate axes is not a NaN: no rounding
    in the projections makes [TestColliderPair] miss a contact at a
    vertex. *)
Theorem shared_vertex_means_overlap (a b : Collider spec_float) (i j : nat) :
  i < COLLIDER_VERTEX_COUNT -> j < COLLIDER_VERTEX_COUNT ->
  vget (vertGlobal a) i = vget (vertGlobal b) j ->
  (forall k, k < 15 ->
     fisnan (Vector3DotProduct (vget (vertGlobal a) i) (axis a b k)) = false) ->
  TestColliderPair a b = true.
Proof.
  exact (@shared_vertex_overlap spec_float binary32 b32_bounds_enclose_finite
           b32_encloses_not_disjoint a b i j).
Qed.

(** The cube and its copy two units along x: vertex 4 of the first is
    vertex 0 of the second. *)
Lemma shared_vertex_means_overlap_witness :
  TestColliderPair cube cube_touching = true.
Proof.
  apply (shared_vertex_means_overlap cube cube_touching 4 0).
  - apply Nat.ltb_lt. reflexivity.
  - apply Nat.ltb_lt. reflexivity.
  - vm_compute. reflexivity.
  - intros k Hk. apply negb_true_iff.
    apply (below_all
             (fun k => negb (fisnan (Vector3DotProduct (vget (vertGlobal cube) 4)
                                       (axis cube cube_touching k)))) 15);
      [|exact Hk].
    vm_compute. reflexivity.
Defined.
